(** * Logger: a shallow embedding of [src/index.js] and of its predecessor

    The repository is a small Node.js logger.  [src/index.js] is the current
    implementation (severity filter, per-severity callbacks, file and console
    sinks); [src/unnamed/part_000] is the previous revision of the same file,
    without callbacks and without the constructor's file handling.

    Modelling choices.
    - JavaScript values that reach the logger are a tagged union [Value].
      [VNum z] stands for an integer-valued Number within the safe-integer
      range; other Numbers (fractions, NaN, infinities) are not represented.
      Objects with a user-defined [toString] are not represented either, so
      the generic string conversion is a total pure function here.
    - The outside world is a record: the file system as a finite map from
      path to content, the bytes written to standard output, and the number
      of [Date] objects constructed so far.  The file-system primitives of
      Node are total on this map (platform I/O failures are not modelled).
    - Methods run in a state, trace and exception monad.  The trace lists the
      actions the logger itself performs during one call: invoking a
      callback, deleting, writing or appending a file, calling [console.log].
    - Callbacks are arbitrary user code: a function value is an index into an
      environment that gives its source text and its behaviour, and the
      behaviour is any function from the whole state (world and logger
      object) to a new state and an optional exception. *)

From Stdlib Require Import ZArith String Ascii List Bool Lia.
From stdpp Require Import gmap strings pretty.

Open Scope Z_scope.

(** ** JavaScript values *)

#[warnings="-register-all"]
Inductive Value : Type :=
| VUndefined
| VNull
| VBool (b : bool)
| VNum (z : Z)
| VStr (s : string)
| VArr (elems : list Value)
| VObj
| VFun (f : nat).

(** The line feed character, written ["\n"] in the source. *)
Definition LF : string := String "010"%char EmptyString.

(** ToBoolean, as used by [if (...)], [!x] and [x || y]. *)
Definition truthy (v : Value) : bool :=
  match v with
  | VUndefined | VNull => false
  | VBool b => b
  | VNum z => negb (z =? 0)
  | VStr s => negb (String.eqb s EmptyString)
  | VArr _ | VObj | VFun _ => true
  end.

(** The [typeof] operator. *)
Definition typeof (v : Value) : string :=
  match v with
  | VUndefined => "undefined"
  | VNull => "object"
  | VBool _ => "boolean"
  | VNum _ => "number"
  | VStr _ => "string"
  | VArr _ | VObj => "object"
  | VFun _ => "function"
  end.

(** [Array.prototype.join] on an array whose elements are already strings:
    the loop of the language definition, with the result [R] and the index
    [k] as accumulators. *)
Fixpoint join_loop (sep R : string) (k : nat) (elems : list string) : string :=
  match elems with
  | [] => R
  | next :: rest =>
      let R := if (0 <? k)%nat then R +:+ sep else R in
      join_loop sep (R +:+ next) (S k) rest
  end.

Definition join (sep : string) (elems : list string) : string :=
  join_loop sep EmptyString 0 elems.

Section Conversion.

(** Source text of the function values, what [String(f)] returns. *)
Variable fn_source : nat -> string.

(** [String(arg)]: the generic string conversion.  An array converts to
    its elements joined with a comma, [undefined] and [null] elements
    giving the empty string. *)
Fixpoint js_String (v : Value) : string :=
  match v with
  | VUndefined => "undefined"
  | VNull => "null"
  | VBool true => "true"
  | VBool false => "false"
  | VNum z => pretty z
  | VStr s => s
  | VArr elems =>
      join ","
        (List.map (fun e => match e with
                            | VUndefined | VNull => EmptyString
                            | _ => js_String e
                            end) elems)
  | VObj => "[object Object]"
  | VFun f => fn_source f
  end.

End Conversion.

(** ** Severities: [LOG_TYPES] and [LOG_LEVELS] *)

Inductive Severity : Type := DEBUG | INFO | WARN | ERROR.

Definition LOG_TYPES (s : Severity) : string :=
  match s with
  | DEBUG => "DEBUG"
  | INFO => "INFO"
  | WARN => "WARN"
  | ERROR => "ERROR"
  end.

Definition LOG_LEVELS (s : Severity) : Z :=
  match s with
  | DEBUG => 0
  | INFO => 1
  | WARN => 2
  | ERROR => 3
  end.

(** [Object.values(LOG_TYPES)], in property order. *)
Definition LOG_TYPES_values : list Value :=
  [VStr (LOG_TYPES DEBUG); VStr (LOG_TYPES INFO);
   VStr (LOG_TYPES WARN); VStr (LOG_TYPES ERROR)].

(** SameValueZero restricted to the comparisons [includes] can make true
    here: the array holds strings only, so only a string can match. *)
Definition same_value_zero (a b : Value) : bool :=
  match a, b with
  | VStr s, VStr t => String.eqb s t
  | _, _ => false
  end.

(** [Array.prototype.includes]. *)
Definition includes (l : list Value) (v : Value) : bool :=
  existsb (fun e => same_value_zero e v) l.

(** ** The world, exceptions and the trace of a call *)

Record World : Type := mkWorld {
  files : gmap string string;   (* path to content *)
  stdout : string;              (* bytes written to standard output *)
  ticks : nat                   (* Date objects constructed so far *)
}.

Inductive Exn : Type :=
| JsError (msg : string)        (* new Error(msg) *)
| JsTypeError (msg : string)    (* raised by the language itself *)
| Thrown (v : Value).           (* anything thrown by user code *)

Inductive Event : Type :=
| EvCallback (callee : Value) (args : list Value)
| EvUnlink (path : string)
| EvWriteFile (path data : string)
| EvAppendFile (path data : string)
| EvConsoleLog (data : string).

(** Outcome of running a computation: final state, the logger's own actions,
    and either a value or the exception that escaped. *)
Record Result (St A : Type) : Type := mkResult {
  r_state : St;
  r_trace : list Event;
  r_value : A + Exn
}.
Arguments mkResult {St A} _ _ _.
Arguments r_state {St A} _.
Arguments r_trace {St A} _.
Arguments r_value {St A} _.

Definition M (St A : Type) : Type := St -> Result St A.

Definition ret {St A} (a : A) : M St A :=
  fun st => mkResult st [] (inl a).

Definition throw {St A} (e : Exn) : M St A :=
  fun st => mkResult st [] (inr e).

Definition bind {St A B} (c : M St A) (k : A -> M St B) : M St B :=
  fun st =>
    match c st with
    | mkResult st1 tr1 (inl a) =>
        match k a st1 with
        | mkResult st2 tr2 v => mkResult st2 (tr1 ++ tr2) v
        end
    | mkResult st1 tr1 (inr e) => mkResult st1 tr1 (inr e)
    end.

Definition gets {St A} (f : St -> A) : M St A :=
  fun st => mkResult st [] (inl (f st)).

Definition modify {St} (f : St -> St) : M St unit :=
  fun st => mkResult (f st) [] (inl tt).

Definition emit {St} (e : Event) : M St unit :=
  fun st => mkResult st [e] (inl tt).

Declare Scope js_scope.
Delimit Scope js_scope with js.
Notation "x <- c ;; k" := (bind c (fun x => k))
  (at level 100, c at next level, right associativity) : js_scope.
Notation "c ;;; k" := (bind c (fun _ => k))
  (at level 100, right associativity) : js_scope.

(** A state that contains the world. *)
Class HasWorld (St : Type) : Type := {
  get_world : St -> World;
  put_world : World -> St -> St
}.

Section Primitives.
Context {St : Type} `{HasWorld St}.

Definition on_world (f : World -> World) : M St unit :=
  modify (fun st => put_world (f (get_world st)) st).

(** [fs.existsSync(path)] *)
Definition existsSync (path : string) : M St bool :=
  gets (fun st => bool_decide (is_Some (files (get_world st) !! path))).

(** [fs.unlinkSync(path)]; only ever called on an existing file. *)
Definition unlinkSync (path : string) : M St unit :=
  (emit (EvUnlink path) ;;;
   on_world (fun w => mkWorld (delete path (files w)) (stdout w) (ticks w)))%js.

(** [fs.writeFileSync(path, data)]: create or truncate, then write. *)
Definition writeFileSync (path data : string) : M St unit :=
  (emit (EvWriteFile path data) ;;;
   on_world (fun w => mkWorld (<[path := data]> (files w)) (stdout w) (ticks w)))%js.

(** [fs.appendFileSync(path, data)]: create if missing, write at the end. *)
Definition appendFileSync (path data : string) : M St unit :=
  (emit (EvAppendFile path data) ;;;
   on_world (fun w =>
     mkWorld (<[path := default EmptyString (files w !! path) +:+ data]> (files w))
             (stdout w) (ticks w)))%js.

(** [console.log(data)] with a single string argument: the string, then a
    line feed, on standard output. *)
Definition console_log (data : string) : M St unit :=
  (emit (EvConsoleLog data) ;;;
   on_world (fun w => mkWorld (files w) (stdout w +:+ data +:+ LF) (ticks w)))%js.

(** [new Date()]: the index of the Date object just built. *)
Definition new_Date : M St nat :=
  (k <- gets (fun st => ticks (get_world st)) ;;
   on_world (fun w => mkWorld (files w) (stdout w) (S (ticks w))) ;;;
   ret k)%js.

End Primitives.

(** ** Constructor options

    The object literal handed to [new Logger(...)].  A field is [None] when
    the property is absent (or [undefined]).  The constructor destructures
    its argument, so a missing argument is an error of the language. *)

Record Options : Type := mkOptions {
  opt_logToFile : option bool;
  opt_logToConsole : option bool;
  opt_logFilePath : option string;
  opt_level : option Z;
  opt_clearFile : option bool
}.

(** [logFilePath || undefined]: the empty string is falsy. *)
Definition or_undefined (p : option string) : option string :=
  match p with
  | Some s => if String.eqb s EmptyString then None else Some s
  | None => None
  end.

Definition destructure_undefined : Exn :=
  JsTypeError "Cannot destructure property 'logToFile' of 'undefined' as it is undefined.".

(** The tags the methods pass to [#log]. *)
Definition tag (s : Severity) : string :=
  match s with
  | DEBUG => "DEBUG"
  | INFO => "INFO"
  | WARN => "WARN"
  | ERROR => "ERROR"
  end.

(** ** The previous revision, [src/unnamed/part_000] *)

Module Legacy.

Record Logger : Type := mkLogger {
  logToFile : bool;
  logToConsole : bool;
  logFilePath : option string;
  level : Z
}.

Record State : Type := mkState {
  world : World;
  this : Logger
}.

#[export] Instance State_HasWorld : HasWorld State := {|
  get_world := world;
  put_world w st := mkState w (this st)
|}.

Section Methods.

Variable fn_source : nat -> string.
(** ISO 8601 text of the k-th Date object, what [toISOString()] returns. *)
Variable toISOString : nat -> string.

Definition constructor (arg : option Options) : M State unit :=
  match arg with
  | None => throw destructure_undefined
  | Some o =>
      let logToFile_ := default false (opt_logToFile o) in
      let logToConsole_ := default false (opt_logToConsole o) in
      modify (fun st =>
        mkState (world st)
          (mkLogger (logToFile_ || false) (logToConsole_ || false)
             (or_undefined (opt_logFilePath o))
             (match opt_level o with
              | None => LOG_LEVELS INFO
              | Some l => l
              end)))
  end.

(** [#getFormattedMessage(...message)] *)
Definition priv_getFormattedMessage (message : list Value) : string :=
  join " " (List.map (fun arg => js_String fn_source arg) message) +:+ LF.

(** [#getFormattedDate()] *)
Definition priv_getFormattedDate : M State string :=
  (now <- new_Date ;; ret (toISOString now))%js.

(** [#logToConsole(message)] *)
Definition priv_logToConsole (message : string) : M State unit :=
  (self <- gets this ;;
   if logToConsole self then console_log message else ret tt)%js.

(** [#logToFile(message)] *)
Definition priv_logToFile (message : string) : M State unit :=
  (self <- gets this ;;
   if logToFile self then
     match logFilePath self with
     | Some path =>
         if negb (String.eqb path EmptyString)
         then appendFileSync path message
         else throw (JsError "No log file path provided")
     | None => throw (JsError "No log file path provided")
     end
   else ret tt)%js.

(** [#log(level, ...message)] *)
Definition priv_log (level_ : string) (message : list Value) : M State unit :=
  (let payloadString := priv_getFormattedMessage message in
   date <- priv_getFormattedDate ;;
   let logMessage := date +:+ " [" +:+ level_ +:+ "] " +:+ payloadString in
   priv_logToFile logMessage ;;;
   priv_logToConsole logMessage)%js.

Definition debug (message : list Value) : M State unit :=
  (let level_ := LOG_LEVELS DEBUG in
   this_level <- gets (fun st => level (this st)) ;;
   if this_level >? level_ then ret tt
   else priv_log "DEBUG" message)%js.

Definition info (message : list Value) : M State unit :=
  (let level_ := LOG_LEVELS INFO in
   this_level <- gets (fun st => level (this st)) ;;
   if this_level >? level_ then ret tt
   else priv_log "INFO" message)%js.

Definition warn (message : list Value) : M State unit :=
  (let level_ := LOG_LEVELS WARN in
   this_level <- gets (fun st => level (this st)) ;;
   if this_level >? level_ then ret tt
   else priv_log "WARN" message)%js.

Definition error (message : list Value) : M State unit :=
  (let level_ := LOG_LEVELS ERROR in
   this_level <- gets (fun st => level (this st)) ;;
   if this_level >? level_ then ret tt
   else priv_log "ERROR" message)%js.

(** The method a caller picks for a severity. *)
Definition method (s : Severity) : list Value -> M State unit :=
  match s with
  | DEBUG => debug
  | INFO => info
  | WARN => warn
  | ERROR => error
  end.

(** A caller that makes a series of calls and catches what each one throws. *)
Fixpoint run_calls (calls : list (Severity * list Value)) (st : State)
  : State * list (list Event * (unit + Exn)) :=
  match calls with
  | [] => (st, [])
  | (s, message) :: rest =>
      let r := method s message st in
      let '(st', outcomes) := run_calls rest (r_state r) in
      (st', (r_trace r, r_value r) :: outcomes)
  end.

End Methods.

End Legacy.

(** ** The current implementation, [src/index.js] *)

Record Logger : Type := mkLogger {
  logToFile : bool;
  logToConsole : bool;
  logFilePath : option string;
  level : Z;
  clearFile : bool;
  cb : gmap string Value       (* the object [this.cb], keyed by name *)
}.

Record State : Type := mkState {
  world : World;
  this : Logger
}.

#[export] Instance State_HasWorld : HasWorld State := {|
  get_world := world;
  put_world w st := mkState w (this st)
|}.

(** Behaviour of a function value when the logger calls it: user code may
    change the world and the logger object, and either returns (its result
    is ignored by the logger) or throws. *)
Definition Behaviour : Type := list Value -> State -> State * option Exn.

(** [this.cb[key] = v] *)
Definition set_cb (key : string) (v : Value) (l : Logger) : Logger :=
  mkLogger (logToFile l) (logToConsole l) (logFilePath l) (level l)
           (clearFile l) (<[key := v]> (cb l)).

(** Sink actions in a trace, and callback invocations in a trace. *)
Definition is_sink_event (e : Event) : bool :=
  match e with
  | EvAppendFile _ _ | EvConsoleLog _ => true
  | _ => false
  end.

Definition is_callback_event (e : Event) : bool :=
  match e with
  | EvCallback _ _ => true
  | _ => false
  end.

Definition sink_events (tr : list Event) : list Event :=
  List.filter is_sink_event tr.

Definition callback_events (tr : list Event) : list Event :=
  List.filter is_callback_event tr.

(** Whether a string ends with a given suffix. *)
Definition ends_with (suffix s : string) : bool :=
  let n := String.length s in
  let k := String.length suffix in
  (k <=? n)%nat && String.eqb (String.substring (n - k) k s) suffix.

(** Number of line feeds in a string. *)
Fixpoint count_LF (s : string) : nat :=
  match s with
  | EmptyString => 0%nat
  | String c s' => ((if Ascii.eqb c "010"%char then 1 else 0) + count_LF s')%nat
  end.

(** Every element after the first is preceded by the separator. *)
Fixpoint sep_each (sep : string) (elems : list string) : string :=
  match elems with
  | [] => EmptyString
  | e :: rest => sep +:+ e +:+ sep_each sep rest
  end.

Definition no_path_error : Exn := JsError "No log file path provided".

(** The logger object the constructor builds from the options. *)
Definition configured (o : Options) : Logger :=
  mkLogger (default false (opt_logToFile o) || false)
           (default false (opt_logToConsole o) || false)
           (or_undefined (opt_logFilePath o))
           (match opt_level o with
            | None => LOG_LEVELS INFO
            | Some l => l
            end)
           (default false (opt_clearFile o)) ∅.

(** The files after the constructor has handled the file at [path]. *)
Definition cleared_files (clear : bool) (path : string)
    (fs : gmap string string) : gmap string string :=
  let fs := if bool_decide (is_Some (fs !! path)) then delete path fs else fs in
  if clear then <[path := EmptyString]> fs else fs.

(** The options [{ logToConsole: true, level: 1 }]. *)
Definition console_at_info : Options :=
  mkOptions None (Some true) None (Some 1) None.

(** The console scenario as the specification words it: what the call wrote
    to the console stream is a timestamp prefix without a line break, then
    "[INFO] x", then one line feed. *)
Definition single_line_written (before after : string) : Prop :=
  exists prefix,
    count_LF prefix = 0%nat /\
    after = before +:+ prefix +:+ "[INFO] x" +:+ LF.

(** ** A sample environment and sample states, for concrete instances *)

Definition sample_source (f : nat) : string :=
  "function cb(...message) { /* user code */ }".

(** Function 0 returns at once, function 1 throws the string "boom", and any
    other function is the callback of the README, which prints a line. *)
Definition sample_call (f : nat) : Behaviour :=
  fun args st =>
    match f with
    | 0%nat => (st, None)
    | 1%nat => (st, Some (Thrown (VStr "boom")))
    | _ =>
        (mkState
           (mkWorld (files (world st))
                    (stdout (world st) +:+ "Callback!" +:+ LF)
                    (ticks (world st)))
           (this st), None)
    end.

Definition sample_clock (k : nat) : string := "2024-05-01T12:00:00.000Z".

Definition empty_world : World := mkWorld ∅ EmptyString 0.

(** A world with an old log file. *)
Definition world_with_log : World :=
  mkWorld {[ "t.log" := "old line" ]} EmptyString 0.

(** The object before its constructor has run. *)
Definition blank : Logger := mkLogger false false None 0 false ∅.

Definition fresh (w : World) : State := mkState w blank.

(** [{ logToFile: true, logToConsole: true }]: file sink without a path. *)
Definition opts_no_path : Options :=
  mkOptions (Some true) (Some true) None None None.

Definition st_no_path : State :=
  mkState empty_world (mkLogger true true None 1 false ∅).

(** [{ logToFile: true, level: 3 }], then [on("DEBUG", f1)]. *)
Definition opts_no_path_error_level : Options :=
  mkOptions (Some true) None None (Some 3) None.

Definition st_thrower : State :=
  mkState empty_world
    (mkLogger true false None 3 false {[ "DEBUG" := VFun 1 ]}).

(** [{ logToFile: true, logFilePath: "t.log", logToConsole: true }] *)
Definition opts_both : Options :=
  mkOptions (Some true) (Some true) (Some "t.log") None None.

Definition st_both : State :=
  mkState empty_world (mkLogger true true (Some "t.log") 1 false ∅).

(** [{ logToFile: true, logFilePath: "t.log", clearFile: true }] *)
Definition opts_clear : Options :=
  mkOptions (Some true) None (Some "t.log") None (Some true).

(** [{ logToConsole: true }], then [on("DEBUG", f2)]. *)
Definition st_readme_callback : State :=
  mkState empty_world
    (mkLogger false true None 1 false {[ "DEBUG" := VFun 2 ]}).

(** The state of the previous revision after [{ logToFile: true,
    logFilePath: "t.log", logToConsole: true }]. *)
Definition legacy_st_both : Legacy.State :=
  Legacy.mkState empty_world (Legacy.mkLogger true true (Some "t.log") 1).

Definition sample_calls : list (Severity * list Value) :=
  [(DEBUG, [VStr "d"]); (INFO, [VStr "a"; VNum 1; VBool true]);
   (ERROR, [VStr "boom"])].

(** [{ logToFile: true, logToConsole: true, level: 4 }]: above ERROR. *)
Definition st_silent : State :=
  mkState empty_world (mkLogger true true None 4 false ∅).

(** [{ logToConsole: true, level: 0 }] *)
Definition st_verbose : State :=
  mkState empty_world (mkLogger false true None 0 false ∅).

(** The state of [st_both] on the world with an old log file. *)
Definition st_both_old : State :=
  mkState world_with_log (mkLogger true true (Some "t.log") 1 false ∅).

(** Registrations with good and bad arguments. *)
Definition sample_registrations : list (Value * Value) :=
  [(VStr "WARN", VFun 2); (VStr "TRACE", VFun 0); (VStr "INFO", VNum 7);
   (VNum 1, VFun 0)].

Section Current.

Variable fn_source : nat -> string.
Variable fn_call : nat -> Behaviour.
(** ISO 8601 text of the k-th Date object, what [toISOString()] returns. *)
Variable toISOString : nat -> string.

Definition constructor (arg : option Options) : M State unit :=
  match arg with
  | None => throw destructure_undefined
  | Some o =>
      let logToFile_ := default false (opt_logToFile o) in
      let logToConsole_ := default false (opt_logToConsole o) in
      let clearFile_ := default false (opt_clearFile o) in
      (modify (fun st =>
         mkState (world st)
           (mkLogger (logToFile_ || false) (logToConsole_ || false)
              (or_undefined (opt_logFilePath o))
              (match opt_level o with
               | None => LOG_LEVELS INFO
               | Some l => l
               end)
              clearFile_ ∅)) ;;;
       (* Clear file if specified *)
       self <- gets this ;;
       match logFilePath self with
       | Some path =>
           if logToFile self && negb (String.eqb path EmptyString) then
             (present <- existsSync path ;;
              (if present then unlinkSync path else ret tt) ;;;
              if clearFile self then writeFileSync path EmptyString
              else ret tt)
           else ret tt
       | None => ret tt
       end)%js
  end.

(** Calling a value with the spread arguments.  Calling something that is
    not a function is an error of the language. *)
Definition call (callee : Value) (args : list Value) : M State unit :=
  fun st =>
    match callee with
    | VFun f =>
        let '(st', exn) := fn_call f args st in
        mkResult st' [EvCallback callee args]
          (match exn with
           | None => inl tt
           | Some e => inr e
           end)
    | _ => mkResult st [] (inr (JsTypeError "this.cb[...] is not a function"))
    end.

(** The statement [if (this.cb[key]) this.cb[key](...message);] that opens
    each of the four methods. *)
Definition run_cb (key : string) (message : list Value) : M State unit :=
  (registered <- gets (fun st => cb (this st) !! key) ;;
   match registered with
   | Some v => if truthy v then call v message else ret tt
   | None => ret tt
   end)%js.

(** [#getFormattedMessage(...message)] *)
Definition priv_getFormattedMessage (message : list Value) : string :=
  join " " (List.map (fun arg => js_String fn_source arg) message) +:+ LF.

(** [#getFormattedDate()] *)
Definition priv_getFormattedDate : M State string :=
  (now <- new_Date ;; ret (toISOString now))%js.

(** [#logToConsole(message)] *)
Definition priv_logToConsole (message : string) : M State unit :=
  (self <- gets this ;;
   if logToConsole self then console_log message else ret tt)%js.

(** [#logToFile(message)] *)
Definition priv_logToFile (message : string) : M State unit :=
  (self <- gets this ;;
   if logToFile self then
     match logFilePath self with
     | Some path =>
         if negb (String.eqb path EmptyString)
         then appendFileSync path message
         else throw (JsError "No log file path provided")
     | None => throw (JsError "No log file path provided")
     end
   else ret tt)%js.

(** [#log(level, ...message)] *)
Definition priv_log (level_ : string) (message : list Value) : M State unit :=
  (let payloadString := priv_getFormattedMessage message in
   date <- priv_getFormattedDate ;;
   let logMessage := date +:+ " [" +:+ level_ +:+ "] " +:+ payloadString in
   priv_logToFile logMessage ;;;
   priv_logToConsole logMessage)%js.

Definition debug (message : list Value) : M State unit :=
  (run_cb (LOG_TYPES DEBUG) message ;;;
   let level_ := LOG_LEVELS DEBUG in
   this_level <- gets (fun st => level (this st)) ;;
   if this_level >? level_ then ret tt
   else priv_log "DEBUG" message)%js.

Definition info (message : list Value) : M State unit :=
  (run_cb (LOG_TYPES INFO) message ;;;
   let level_ := LOG_LEVELS INFO in
   this_level <- gets (fun st => level (this st)) ;;
   if this_level >? level_ then ret tt
   else priv_log "INFO" message)%js.

Definition warn (message : list Value) : M State unit :=
  (run_cb (LOG_TYPES WARN) message ;;;
   let level_ := LOG_LEVELS WARN in
   this_level <- gets (fun st => level (this st)) ;;
   if this_level >? level_ then ret tt
   else priv_log "WARN" message)%js.

Definition error (message : list Value) : M State unit :=
  (run_cb (LOG_TYPES ERROR) message ;;;
   let level_ := LOG_LEVELS ERROR in
   this_level <- gets (fun st => level (this st)) ;;
   if this_level >? level_ then ret tt
   else priv_log "ERROR" message)%js.

(** [on(level, cb)] *)
Definition on (level_ cb_ : Value) : M State unit :=
  if negb (includes LOG_TYPES_values level_) then ret tt
  else if negb (String.eqb (typeof cb_) "function") then ret tt
  else
    modify (fun st =>
      mkState (world st) (set_cb (js_String fn_source level_) cb_ (this st))).

(** The method a caller picks for a severity. *)
Definition method (s : Severity) : list Value -> M State unit :=
  match s with
  | DEBUG => debug
  | INFO => info
  | WARN => warn
  | ERROR => error
  end.

(** A caller that makes a series of calls and catches what each one throws:
    the outcome (trace and completion) of every call, in order. *)
Fixpoint run_calls (calls : list (Severity * list Value)) (st : State)
  : State * list (list Event * (unit + Exn)) :=
  match calls with
  | [] => (st, [])
  | (s, message) :: rest =>
      let r := method s message st in
      let '(st', outcomes) := run_calls rest (r_state r) in
      (st', (r_trace r, r_value r) :: outcomes)
  end.


(** *** Derived notions used to state the properties *)

(** What follows the callback statement in the method of severity [s]. *)
Definition after_cb (s : Severity) (message : list Value) : M State unit :=
  (this_level <- gets (fun st => level (this st)) ;;
   if this_level >? LOG_LEVELS s then ret tt
   else priv_log (tag s) message)%js.

(** The line built by [#log] for severity [s] when the Date it constructs
    is the k-th one. *)
Definition line (s : Severity) (message : list Value) (k : nat) : string :=
  toISOString k +:+ " [" +:+ tag s +:+ "] " +:+ priv_getFormattedMessage message.

(** The path is set: present and not the empty string. *)
Definition path_set (p : option string) : bool :=
  match p with
  | Some s => negb (String.eqb s EmptyString)
  | None => false
  end.

(** The file sink, when enabled, has a path. *)
Definition file_sink_ready (l : Logger) : Prop :=
  logToFile l = true -> path_set (logFilePath l) = true.

(** Sink actions of one emission of [ln] by a logger configured as [l]. *)
Definition emitted_trace (l : Logger) (ln : string) : list Event :=
  (if logToFile l then
     match logFilePath l with
     | Some p => [EvAppendFile p ln]
     | None => []
     end
   else []) ++
  (if logToConsole l then [EvConsoleLog ln] else []).

(** The world after one emission of [ln]. *)
Definition emitted_world (l : Logger) (ln : string) (w : World) : World :=
  mkWorld
    (if logToFile l then
       match logFilePath l with
       | Some p => <[p := default EmptyString (files w !! p) +:+ ln]> (files w)
       | None => files w
       end
     else files w)
    (if logToConsole l then stdout w +:+ ln +:+ LF else stdout w)
    (S (ticks w)).

(** The world after a Date has been constructed and nothing else. *)
Definition ticked (w : World) : World :=
  mkWorld (files w) (stdout w) (S (ticks w)).

(** The filter property of one call with outcome [r], judged against the
    configuration [l] and the clock value [k]: the line reaches each enabled
    sink exactly when the severity is at least the minimum, and a call below
    the minimum returns without any sink action. *)
Definition filter_law (l : Logger) (k : nat) (s : Severity)
    (message : list Value) (r : Result State unit) : Prop :=
  let ln := line s message k in
  (logToFile l = true ->
     ((exists p, In (EvAppendFile p ln) (r_trace r)) <-> LOG_LEVELS s >= level l)) /\
  (logToConsole l = true ->
     (In (EvConsoleLog ln) (r_trace r) <-> LOG_LEVELS s >= level l)) /\
  (LOG_LEVELS s < level l ->
     r_value r = inl tt /\ sink_events (r_trace r) = []).

(** What is expected of a call with outcome [r] on a logger configured as
    [l], with the file sink enabled and no path: the error when the severity
    passes the filter, a normal return when it does not. *)
Definition config_error_law (l : Logger) (s : Severity)
    (r : Result State unit) : Prop :=
  (LOG_LEVELS s >= level l -> r_value r = inr no_path_error) /\
  (LOG_LEVELS s < level l -> r_value r = inl tt).

Definition same_config (l : Logger) (l' : Legacy.Logger) : Prop :=
  logToFile l = Legacy.logToFile l' /\
  logToConsole l = Legacy.logToConsole l' /\
  logFilePath l = Legacy.logFilePath l' /\
  level l = Legacy.level l'.

(** No callback is registered for any of the four severities. *)
Definition no_callbacks (l : Logger) : Prop :=
  forall s, cb l !! LOG_TYPES s = None.

(** A state of the current implementation and a state of the previous one
    that have the same configuration, the same console stream and the same
    clock.  The files are left out: the two constructors treat them
    differently. *)
Definition corresponds (st : State) (st' : Legacy.State) : Prop :=
  same_config (this st) (Legacy.this st') /\
  stdout (world st) = stdout (Legacy.world st') /\
  ticks (world st) = ticks (Legacy.world st').

(** *** Notions for the properties of series of calls and of registration *)

(** The lines a series of calls emits on a logger without callbacks whose
    minimum is [lvl], when the next Date to be constructed is the k-th:
    a call below the minimum emits nothing and constructs no Date. *)
Fixpoint emitted_lines (lvl : Z) (k : nat)
    (calls : list (Severity * list Value)) : list string :=
  match calls with
  | [] => []
  | (s, message) :: rest =>
      if LOG_LEVELS s <? lvl then emitted_lines lvl k rest
      else line s message k :: emitted_lines lvl (S k) rest
  end.

(** Strings written one after the other. *)
Definition concat_all (l : list string) : string :=
  fold_right String.append EmptyString l.

(** The bytes [console.log] writes for a list of lines. *)
Definition console_bytes (lines : list string) : string :=
  concat_all (List.map (fun ln => ln +:+ LF) lines).

(** The world after the lines have been emitted in order. *)
Definition world_after (l : Logger) (lines : list string) (w : World) : World :=
  fold_left (fun w ln => emitted_world l ln w) lines w.

(** Every entry of the table of callbacks is a function stored under one of
    the four severity names. *)
Definition table_ok (l : Logger) : Prop :=
  forall key v,
    cb l !! key = Some v ->
    (exists s, key = LOG_TYPES s) /\ (exists f, v = VFun f).

(** A series of calls of [on], each with two arbitrary values. *)
Fixpoint register_all (regs : list (Value * Value)) (st : State) : State :=
  match regs with
  | [] => st
  | (level_, cb_) :: rest => register_all rest (r_state (on level_ cb_ st))
  end.

(** Line feeds in the conversions of the arguments of one call. *)
Definition arguments_LF (message : list Value) : nat :=
  list_sum (List.map (fun arg => count_LF (js_String fn_source arg)) message).

(** ** Basic facts *)

(** The monad's equations used throughout. *)

Lemma result_eta {St A} (r : Result St A) :
  mkResult (r_state r) (r_trace r) (r_value r) = r.
Proof. destruct r; reflexivity. Qed.

Lemma bind_gets {St A B} (f : St -> A) (k : A -> M St B) (st : St) :
  bind (gets f) k st = k (f st) st.
Proof. unfold bind, gets. destruct (k (f st) st); reflexivity. Qed.

Lemma bind_ret {St A B} (a : A) (k : A -> M St B) (st : St) :
  bind (ret a) k st = k a st.
Proof. unfold bind, ret. destruct (k a st); reflexivity. Qed.

Lemma bind_throw {St A B} (e : Exn) (k : A -> M St B) (st : St) :
  bind (throw e) k st = mkResult st [] (inr e).
Proof. reflexivity. Qed.

Lemma bind_normal {St A B} (c : M St A) (k : A -> M St B) (st : St) (a : A) :
  r_value (c st) = inl a ->
  bind c k st =
  mkResult (r_state (k a (r_state (c st))))
           (r_trace (c st) ++ r_trace (k a (r_state (c st))))
           (r_value (k a (r_state (c st)))).
Proof.
  intros Hv. unfold bind. destruct (c st) as [st1 tr1 v]. simpl in Hv. subst v.
  simpl. destruct (k a st1); reflexivity.
Qed.

Lemma bind_abrupt {St A B} (c : M St A) (k : A -> M St B) (st : St) (e : Exn) :
  r_value (c st) = inr e ->
  bind c k st = mkResult (r_state (c st)) (r_trace (c st)) (inr e).
Proof.
  intros Hv. unfold bind. destruct (c st) as [st1 tr1 v]. simpl in Hv. subst v.
  reflexivity.
Qed.

(** A computation that is known in full, followed by another one. *)
Lemma bind_step {St A B} (c : M St A) (k : A -> M St B) (st st1 : St)
    (tr : list Event) (a : A) :
  c st = mkResult st1 tr (inl a) ->
  bind c k st =
  mkResult (r_state (k a st1)) (tr ++ r_trace (k a st1)) (r_value (k a st1)).
Proof.
  intros Hc. unfold bind. rewrite Hc. destruct (k a st1); reflexivity.
Qed.

Lemma bind_stop {St A B} (c : M St A) (k : A -> M St B) (st st1 : St)
    (tr : list Event) (e : Exn) :
  c st = mkResult st1 tr (inr e) ->
  bind c k st = mkResult st1 tr (inr e).
Proof. intros Hc. unfold bind. now rewrite Hc. Qed.

Lemma method_unfold (s : Severity) (message : list Value) :
  method s message =
  (run_cb (LOG_TYPES s) message ;;; after_cb s message)%js.
Proof. destruct s; reflexivity. Qed.

Lemma run_cb_none (key : string) (message : list Value) (st : State) :
  cb (this st) !! key = None ->
  run_cb key message st = mkResult st [] (inl tt).
Proof.
  intros Hnone. unfold run_cb, bind, gets. simpl. rewrite Hnone. reflexivity.
Qed.

Lemma run_cb_fun (key : string) (message : list Value) (st : State) (f : nat) :
  cb (this st) !! key = Some (VFun f) ->
  run_cb key message st =
  mkResult (fst (fn_call f message st)) [EvCallback (VFun f) message]
    (match snd (fn_call f message st) with
     | None => inl tt
     | Some e => inr e
     end).
Proof.
  intros Hsome. unfold run_cb, bind, gets. simpl. rewrite Hsome. simpl.
  unfold call. destruct (fn_call f message st) as [st1 exn]. reflexivity.
Qed.

Lemma after_cb_filtered (s : Severity) (message : list Value) (st : State) :
  LOG_LEVELS s < level (this st) ->
  after_cb s message st = mkResult st [] (inl tt).
Proof.
  intros Hlt. unfold after_cb. rewrite bind_gets.
  assert (Hgt : (level (this st) >? LOG_LEVELS s) = true) by (apply Z.gtb_lt; lia).
  rewrite Hgt. reflexivity.
Qed.

Lemma after_cb_passes (s : Severity) (message : list Value) (st : State) :
  level (this st) <= LOG_LEVELS s ->
  after_cb s message st = priv_log (tag s) message st.
Proof.
  intros Hle. unfold after_cb. rewrite bind_gets.
  assert (Hgt : (level (this st) >? LOG_LEVELS s) = false).
  { destruct (level (this st) >? LOG_LEVELS s) eqn:E; [|reflexivity].
    apply Z.gtb_lt in E. lia. }
  rewrite Hgt. reflexivity.
Qed.

Lemma priv_log_ready (s : Severity) (message : list Value) (st : State) :
  file_sink_ready (this st) ->
  priv_log (tag s) message st =
  mkResult
    (mkState (emitted_world (this st) (line s message (ticks (world st))) (world st))
             (this st))
    (emitted_trace (this st) (line s message (ticks (world st))))
    (inl tt).
Proof.
  intros Hready. destruct st as [w l]. unfold file_sink_ready in Hready.
  simpl in Hready.
  unfold priv_log, priv_getFormattedDate, priv_logToFile, priv_logToConsole,
    new_Date, console_log, appendFileSync, on_world, emitted_world,
    emitted_trace, line, bind, gets, modify, emit, ret, throw.
  simpl.
  destruct (logToFile l) eqn:Hf; simpl.
  - specialize (Hready eq_refl).
    destruct (logFilePath l) as [p|] eqn:Hp; simpl in Hready; [|discriminate].
    rewrite Hready. simpl.
    destruct (logToConsole l); reflexivity.
  - destruct (logToConsole l); reflexivity.
Qed.

Lemma priv_log_no_path (tg : string) (message : list Value) (st : State) :
  logToFile (this st) = true ->
  path_set (logFilePath (this st)) = false ->
  priv_log tg message st =
  mkResult (mkState (ticked (world st)) (this st)) []
    (inr (JsError "No log file path provided")).
Proof.
  intros Hf Hp. destruct st as [w l]. simpl in Hf, Hp.
  unfold priv_log, priv_getFormattedDate, priv_logToFile, priv_logToConsole,
    new_Date, on_world, ticked, bind, gets, modify, emit, ret, throw.
  simpl. rewrite Hf.
  destruct (logFilePath l) as [p|]; simpl in Hp |- *.
  - rewrite Hp. reflexivity.
  - reflexivity.
Qed.

(** ** Strings and [join] *)

Lemma append_cons (ch : ascii) (a b : string) :
  String ch a +:+ b = String ch (a +:+ b).
Proof. reflexivity. Qed.

Lemma append_nil_l (a : string) : EmptyString +:+ a = a.
Proof. reflexivity. Qed.

Lemma append_assoc (a b c : string) : (a +:+ b) +:+ c = a +:+ (b +:+ c).
Proof.
  induction a as [|ch a IH]; [reflexivity|].
  rewrite !append_cons. now rewrite IH.
Qed.

Lemma append_nil_r (a : string) : a +:+ EmptyString = a.
Proof.
  induction a as [|ch a IH]; [reflexivity|].
  rewrite append_cons. now rewrite IH.
Qed.

Lemma length_append (a b : string) :
  String.length (a +:+ b) = (String.length a + String.length b)%nat.
Proof.
  induction a as [|ch a IH]; [reflexivity|].
  rewrite append_cons. simpl. now rewrite IH.
Qed.

Lemma substring_all (a : string) : String.substring 0 (String.length a) a = a.
Proof. induction a as [|ch a IH]; simpl; [reflexivity | now rewrite IH]. Qed.

Lemma substring_skip (a b : string) (n : nat) :
  String.substring (String.length a) n (a +:+ b) = String.substring 0 n b.
Proof.
  induction a as [|ch a IH]; [reflexivity|].
  rewrite append_cons. simpl. exact IH.
Qed.

(** [ends_with] finds every suffix. *)
Lemma ends_with_append (pre suffix : string) :
  ends_with suffix (pre +:+ suffix) = true.
Proof.
  unfold ends_with. rewrite length_append.
  apply andb_true_iff. split.
  - apply Nat.leb_le. lia.
  - replace (String.length pre + String.length suffix - String.length suffix)%nat
      with (String.length pre) by lia.
    rewrite substring_skip, substring_all. apply String.eqb_refl.
Qed.

Lemma count_LF_append (a b : string) :
  count_LF (a +:+ b) = (count_LF a + count_LF b)%nat.
Proof.
  induction a as [|ch a IH]; [reflexivity|].
  rewrite append_cons. simpl. rewrite IH. lia.
Qed.

Lemma join_loop_later (sep : string) (elems : list string) :
  forall (R : string) (k : nat),
    (0 < k)%nat -> join_loop sep R k elems = R +:+ sep_each sep elems.
Proof.
  induction elems as [|e rest IH]; intros R k Hk; simpl.
  - now rewrite append_nil_r.
  - destruct (0 <? k)%nat eqn:E; [|apply Nat.ltb_ge in E; lia].
    rewrite IH by lia. now rewrite !append_assoc.
Qed.

Lemma concat_cons (sep x : string) (elems : list string) :
  String.concat sep (x :: elems) = x +:+ sep_each sep elems.
Proof.
  revert x. induction elems as [|e rest IH]; intros x.
  - simpl. now rewrite append_nil_r.
  - change (String.concat sep (x :: e :: rest))
      with (x +:+ sep +:+ String.concat sep (e :: rest)).
    rewrite IH. reflexivity.
Qed.

(** The loop of [join] computes the separated concatenation. *)
Lemma join_concat (sep : string) (elems : list string) :
  join sep elems = String.concat sep elems.
Proof.
  destruct elems as [|x rest]; [reflexivity|].
  unfold join. simpl join_loop.
  rewrite join_loop_later by lia. now rewrite concat_cons.
Qed.

(** [C7] The body that [#getFormattedMessage] renders for the arguments of
    one call is the generic string conversion of each argument, joined with
    one space, followed by one line feed; for the arguments "a", 1, true
    that is "a 1 true" and a line feed.  The first conjunct compares the
    method with the separated concatenation of the standard library. *)
Theorem C7_formatted_message_body :
  (forall message : list Value,
     priv_getFormattedMessage message =
     String.concat " " (List.map (js_String fn_source) message) +:+ LF) /\
  priv_getFormattedMessage [VStr "a"; VNum 1; VBool true] = "a 1 true" +:+ LF.
Proof.
  split.
  - intros message. unfold priv_getFormattedMessage. now rewrite join_concat.
  - reflexivity.
Qed.

(** ** The severity filter *)

Lemma run_cb_trace (key : string) (message : list Value) (st : State) :
  forall e, In e (r_trace (run_cb key message st)) -> is_callback_event e = true.
Proof.
  intros e. unfold run_cb. rewrite bind_gets.
  destruct (cb (this st) !! key) as [v|]; [|intros []].
  destruct (truthy v); [|intros []].
  unfold call. destruct v; try (intros []).
  destruct (fn_call f message st) as [st1 exn]. simpl.
  intros [<-|[]]. reflexivity.
Qed.

Lemma run_cb_no_sink (key : string) (message : list Value) (st : State) :
  sink_events (r_trace (run_cb key message st)) = [].
Proof.
  unfold sink_events.
  assert (H := run_cb_trace key message st).
  induction (r_trace (run_cb key message st)) as [|e tr IH]; [reflexivity|].
  simpl. assert (He : is_callback_event e = true) by (apply H; now left).
  destruct e; try discriminate. simpl. apply IH.
  intros e' He'. apply H. now right.
Qed.

(** The whole outcome of a method whose callback statement completes
    normally, on a logger whose file sink is usable. *)
Lemma method_result (st : State) (s : Severity) (message : list Value) :
  let r0 := run_cb (LOG_TYPES s) message st in
  let st1 := r_state r0 in
  r_value r0 = inl tt ->
  file_sink_ready (this st1) ->
  method s message st =
  if LOG_LEVELS s <? level (this st1)
  then mkResult st1 (r_trace r0 ++ []) (inl tt)
  else
    let ln := line s message (ticks (world st1)) in
    mkResult (mkState (emitted_world (this st1) ln (world st1)) (this st1))
             (r_trace r0 ++ emitted_trace (this st1) ln) (inl tt).
Proof.
  intros r0 st1 Hnormal Hready. rewrite method_unfold.
  rewrite (bind_normal _ _ _ tt Hnormal). fold r0. fold st1.
  destruct (LOG_LEVELS s <? level (this st1)) eqn:E.
  - apply Z.ltb_lt in E. now rewrite after_cb_filtered.
  - apply Z.ltb_ge in E. rewrite after_cb_passes by lia.
    now rewrite priv_log_ready.
Qed.

(** [C1] amended.  Take a call of the method of severity [s] whose callback
    statement completes normally (no callback registered, or the callback
    returns), and suppose that afterwards the file sink has a path whenever
    it is enabled.  With the minimum level, the sinks and the clock read at
    that point, the formatted line reaches each enabled sink if and only if
    the severity is at least the minimum; below the minimum the method
    returns without any sink action.  The second conjunct gives the state
    the call leaves: untouched below the minimum, and otherwise the line
    appended to the file and written, with the line terminator of
    [console.log], to standard output. *)
Theorem C1_filter_amended (st : State) (s : Severity) (message : list Value) :
  let r0 := run_cb (LOG_TYPES s) message st in
  let st1 := r_state r0 in
  r_value r0 = inl tt ->
  file_sink_ready (this st1) ->
  filter_law (this st1) (ticks (world st1)) s message (method s message st) /\
  r_state (method s message st) =
    (if LOG_LEVELS s <? level (this st1) then st1
     else mkState (emitted_world (this st1) (line s message (ticks (world st1)))
                     (world st1))
                  (this st1)).
Proof.
  intros r0 st1 Hnormal Hready.
  rewrite (method_result st s message Hnormal Hready). fold r0. fold st1.
  split; [|destruct (LOG_LEVELS s <? level (this st1)); reflexivity].
  assert (Hcb : forall e, In e (r_trace r0) -> is_callback_event e = true)
    by apply run_cb_trace.
  assert (Hnosink : sink_events (r_trace r0) = []) by apply run_cb_no_sink.
  unfold filter_law.
  destruct (LOG_LEVELS s <? level (this st1)) eqn:E; simpl.
  - apply Z.ltb_lt in E. rewrite app_nil_r.
    repeat split; try lia; try assumption.
    + intros [p Hin]. apply Hcb in Hin. discriminate.
    + intros Hin. apply Hcb in Hin. discriminate.
  - apply Z.ltb_ge in E. repeat split; try lia.
    + intros _. unfold file_sink_ready in Hready. specialize (Hready H).
      unfold emitted_trace. rewrite H.
      destruct (logFilePath (this st1)) as [p|]; [|discriminate].
      exists p. apply in_or_app. right. apply in_or_app. left. now left.
    + intros _. unfold emitted_trace. rewrite H.
      apply in_or_app. right. apply in_or_app. right. now left.
Qed.

(** ** Callbacks *)

Lemma priv_log_trace (tg : string) (message : list Value) (st : State) :
  forall e, In e (r_trace (priv_log tg message st)) -> is_sink_event e = true.
Proof.
  intros e. destruct st as [w l].
  unfold priv_log, priv_getFormattedDate, priv_logToFile, priv_logToConsole,
    new_Date, console_log, appendFileSync, on_world, bind, gets, modify, emit,
    ret, throw.
  simpl.
  destruct (logToFile l); simpl.
  - destruct (logFilePath l) as [p|]; simpl; [|intros []].
    destruct (negb (p =? EmptyString)%string); simpl; [|intros []].
    destruct (logToConsole l); simpl.
    + intros [<-|[<-|[]]]; reflexivity.
    + intros [<-|[]]; reflexivity.
  - destruct (logToConsole l); simpl.
    + intros [<-|[]]; reflexivity.
    + intros [].
Qed.

Lemma after_cb_trace (s : Severity) (message : list Value) (st : State) :
  forall e, In e (r_trace (after_cb s message st)) -> is_sink_event e = true.
Proof.
  intros e. unfold after_cb. rewrite bind_gets.
  destruct (level (this st) >? LOG_LEVELS s); [intros []|].
  apply priv_log_trace.
Qed.

Lemma after_cb_no_callback (s : Severity) (message : list Value) (st : State) :
  callback_events (r_trace (after_cb s message st)) = [].
Proof.
  unfold callback_events.
  assert (H := after_cb_trace s message st).
  induction (r_trace (after_cb s message st)) as [|e tr IH]; [reflexivity|].
  simpl. assert (He : is_sink_event e = true) by (apply H; now left).
  destruct e; try discriminate; simpl; apply IH; intros e' He'; apply H;
    now right.
Qed.

(** A method on a logger with a function registered for its severity: the
    function is called first, on the state of the call, and the rest of the
    method runs on the state the function leaves, if it returns. *)
Lemma method_with_callback (st : State) (s : Severity) (message : list Value)
    (f : nat) :
  cb (this st) !! LOG_TYPES s = Some (VFun f) ->
  method s message st =
  let st1 := fst (fn_call f message st) in
  match snd (fn_call f message st) with
  | Some e => mkResult st1 [EvCallback (VFun f) message] (inr e)
  | None =>
      let r' := after_cb s message st1 in
      mkResult (r_state r') (EvCallback (VFun f) message :: r_trace r')
               (r_value r')
  end.
Proof.
  intros Hreg. rewrite method_unfold. cbv zeta.
  destruct (snd (fn_call f message st)) as [e|] eqn:Hexn.
  - apply bind_stop. rewrite (run_cb_fun _ _ _ _ Hreg), Hexn. reflexivity.
  - rewrite (bind_step _ _ st (fst (fn_call f message st))
               [EvCallback (VFun f) message] tt); [reflexivity|].
    rewrite (run_cb_fun _ _ _ _ Hreg), Hexn. reflexivity.
Qed.

Lemma callback_invoked_once (st : State) (s : Severity) (message : list Value)
    (f : nat) :
  cb (this st) !! LOG_TYPES s = Some (VFun f) ->
  hd_error (r_trace (method s message st)) = Some (EvCallback (VFun f) message) /\
  callback_events (r_trace (method s message st)) =
    [EvCallback (VFun f) message].
Proof.
  intros Hreg. rewrite (method_with_callback st s message f Hreg). cbv zeta.
  destruct (snd (fn_call f message st)) as [e|]; cbn [r_trace hd_error].
  - split; reflexivity.
  - split; [reflexivity|].
    unfold callback_events. cbn [List.filter is_callback_event]. f_equal.
    apply after_cb_no_callback.
Qed.

(** [C5] When a function is registered for severity [s], every call of the
    method of severity [s] invokes it, first and exactly once, with the
    arguments of the call, whatever the minimum level is.  In particular,
    when the function returns and the severity is below the minimum, the
    invocation is the only action of the call: nothing is emitted. *)
Theorem C5_callback_fires_regardless_of_level (st : State) (s : Severity)
    (message : list Value) (f : nat) :
  cb (this st) !! LOG_TYPES s = Some (VFun f) ->
  let r := method s message st in
  let st1 := fst (fn_call f message st) in
  hd_error (r_trace r) = Some (EvCallback (VFun f) message) /\
  callback_events (r_trace r) = [EvCallback (VFun f) message] /\
  (snd (fn_call f message st) = None ->
   LOG_LEVELS s < level (this st1) ->
   r = mkResult st1 [EvCallback (VFun f) message] (inl tt)).
Proof.
  intros Hreg r st1.
  destruct (callback_invoked_once st s message f Hreg) as [Hfirst Honce].
  repeat split; try assumption.
  intros Hreturns Hlt. unfold r.
  rewrite (method_with_callback st s message f Hreg). cbv zeta. fold st1.
  rewrite Hreturns. now rewrite after_cb_filtered.
Qed.

(** [C6] When the function registered for the severity of a call throws,
    the exception leaves the log method uncaught and the method does nothing
    more: the final state is the one the function left (no Date constructed,
    no file touched, nothing written to standard output by the logger) and
    the trace of the call holds the invocation and no sink action. *)
Theorem C6_callback_exception_aborts (st : State) (s : Severity)
    (message : list Value) (f : nat) (e : Exn) :
  cb (this st) !! LOG_TYPES s = Some (VFun f) ->
  snd (fn_call f message st) = Some e ->
  let r := method s message st in
  r_value r = inr e /\
  r_state r = fst (fn_call f message st) /\
  r_trace r = [EvCallback (VFun f) message] /\
  sink_events (r_trace r) = [].
Proof.
  intros Hreg Hthrow r. unfold r.
  rewrite (method_with_callback st s message f Hreg). simpl.
  rewrite Hthrow. simpl. repeat split.
Qed.

(** ** The file sink without a path *)

Lemma constructor_without_path (st : State) (o : Options) :
  or_undefined (opt_logFilePath o) = None ->
  constructor (Some o) st =
  mkResult
    (mkState (world st)
       (mkLogger (default false (opt_logToFile o) || false)
                 (default false (opt_logToConsole o) || false)
                 None
                 (match opt_level o with
                  | None => LOG_LEVELS INFO
                  | Some l => l
                  end)
                 (default false (opt_clearFile o)) ∅))
    [] (inl tt).
Proof.
  intros Hpath. unfold constructor, bind, gets, modify, ret. simpl.
  rewrite Hpath. reflexivity.
Qed.

(** [C4] amended.  Take a call of the method of severity [s] whose callback
    statement completes normally, on a logger that afterwards has the file
    sink enabled and no path.  If the severity is at least the minimum the
    call throws the error "No log file path provided", raised by the write
    to the file sink; if it is below the minimum the call returns normally.
    In both cases nothing is emitted.  The constructor itself accepts such a
    configuration without error. *)
Theorem C4_missing_path_amended (st : State) (s : Severity)
    (message : list Value) :
  let r0 := run_cb (LOG_TYPES s) message st in
  let st1 := r_state r0 in
  r_value r0 = inl tt ->
  logToFile (this st1) = true ->
  path_set (logFilePath (this st1)) = false ->
  config_error_law (this st1) s (method s message st) /\
  sink_events (r_trace (method s message st)) = [] /\
  (forall (st0 : State) (o : Options),
     or_undefined (opt_logFilePath o) = None ->
     r_value (constructor (Some o) st0) = inl tt).
Proof.
  intros r0 st1 Hnormal Hfile Hpath.
  assert (Hnosink : sink_events (r_trace r0) = []) by apply run_cb_no_sink.
  rewrite method_unfold. rewrite (bind_normal _ _ _ tt Hnormal).
  fold r0. fold st1. cbn [r_value r_trace].
  split; [|split].
  - split; intros Hlevel.
    + rewrite after_cb_passes by lia.
      now rewrite (priv_log_no_path _ _ _ Hfile Hpath).
    + now rewrite after_cb_filtered.
  - unfold sink_events in *. rewrite List.filter_app, Hnosink.
    destruct (Z.lt_ge_cases (LOG_LEVELS s) (level (this st1))) as [Hlt|Hge].
    + now rewrite after_cb_filtered.
    + rewrite after_cb_passes by lia.
      now rewrite (priv_log_no_path _ _ _ Hfile Hpath).
  - intros st0 o Hnone. now rewrite constructor_without_path.
Qed.

(** ** Registration *)

Lemma includes_LOG_TYPES (v : Value) :
  includes LOG_TYPES_values v = true <-> exists s, v = VStr (LOG_TYPES s).
Proof.
  split.
  - unfold includes, LOG_TYPES_values. cbn [existsb same_value_zero LOG_TYPES].
    destruct v; try discriminate.
    rewrite !orb_true_iff, !String.eqb_eq.
    intros [H|[H|[H|[H|H]]]]; try discriminate; subst.
    + now exists DEBUG.
    + now exists INFO.
    + now exists WARN.
    + now exists ERROR.
  - intros [s ->]. destruct s; reflexivity.
Qed.

Lemma typeof_function (v : Value) :
  String.eqb (typeof v) "function" = true <-> exists f, v = VFun f.
Proof.
  split.
  - destruct v; try discriminate. intros _. now exists f.
  - intros [f ->]. reflexivity.
Qed.

Lemma on_registers (st : State) (s : Severity) (f : nat) :
  on (VStr (LOG_TYPES s)) (VFun f) st =
  mkResult (mkState (world st) (set_cb (LOG_TYPES s) (VFun f) (this st)))
           [] (inl tt).
Proof. destruct s; reflexivity. Qed.

(** [C8] Calling [on] with a first argument that is none of the four
    severity names, or with a second argument that is not callable, throws
    nothing, performs no action and leaves the state, hence the whole table
    of callbacks, as it was. *)
Theorem C8_on_ignores_invalid_arguments (st : State) (level_ cb_ : Value) :
  (forall s, level_ <> VStr (LOG_TYPES s)) \/ (forall f, cb_ <> VFun f) ->
  on level_ cb_ st = mkResult st [] (inl tt) /\
  cb (this (r_state (on level_ cb_ st))) = cb (this st).
Proof.
  intros Hbad.
  assert (Hon : on level_ cb_ st = mkResult st [] (inl tt)).
  { unfold on.
    destruct (includes LOG_TYPES_values level_) eqn:Hinc; [|reflexivity].
    destruct (String.eqb (typeof cb_) "function") eqn:Hfun; [|reflexivity].
    exfalso. apply includes_LOG_TYPES in Hinc as [s Hs].
    apply typeof_function in Hfun as [f Hf].
    destruct Hbad as [Hbad|Hbad]; [apply (Hbad s Hs) | apply (Hbad f Hf)]. }
  rewrite Hon. split; reflexivity.
Qed.

Lemma in_callback_events (e : Event) (tr : list Event) :
  In e tr -> is_callback_event e = true -> In e (callback_events tr).
Proof. intros Hin He. apply List.filter_In. now split. Qed.

(** [C9] After [on(s, f)] followed by [on(s, g)], both of which return
    normally, the table of callbacks is the one obtained by registering [g]
    alone: [g] is the entry of [s] and [f] has left no trace in the table.
    A later call of the method of severity [s] invokes [g] exactly once,
    and, when [f] is another function, never invokes [f]. *)
Theorem C9_reregistration_replaces (st : State) (s : Severity) (f g : nat)
    (message : list Value) :
  let r1 := on (VStr (LOG_TYPES s)) (VFun f) st in
  let r2 := on (VStr (LOG_TYPES s)) (VFun g) (r_state r1) in
  let st2 := r_state r2 in
  r_value r1 = inl tt /\ r_value r2 = inl tt /\
  cb (this st2) = <[LOG_TYPES s := VFun g]> (cb (this st)) /\
  cb (this st2) !! LOG_TYPES s = Some (VFun g) /\
  callback_events (r_trace (method s message st2)) =
    [EvCallback (VFun g) message] /\
  (f <> g ->
   forall args, ~ In (EvCallback (VFun f) args) (r_trace (method s message st2))).
Proof.
  intros r1 r2 st2. unfold st2, r2, r1. rewrite !on_registers.
  cbn [r_state r_value this world set_cb cb logToFile].
  assert (Htable :
    <[LOG_TYPES s := VFun g]> (<[LOG_TYPES s := VFun f]> (cb (this st))) =
    <[LOG_TYPES s := VFun g]> (cb (this st))) by apply insert_insert_eq.
  set (st' := mkState _ _).
  assert (Hreg : cb (this st') !! LOG_TYPES s = Some (VFun g))
    by (unfold st'; simpl; apply lookup_insert_eq).
  destruct (callback_invoked_once st' s message g Hreg) as [_ Hevents].
  repeat split; try assumption.
  intros Hne args Hin.
  apply in_callback_events in Hin; [|reflexivity].
  rewrite Hevents in Hin. destruct Hin as [Heq|[]].
  injection Heq as Hfg _. apply Hne. now symmetry.
Qed.

(** ** Construction *)

Lemma constructor_with_path (st : State) (o : Options) (p : string) :
  default false (opt_logToFile o) = true ->
  opt_logFilePath o = Some p ->
  p <> EmptyString ->
  let r := constructor (Some o) st in
  r_value r = inl tt /\
  this (r_state r) = configured o /\
  files (world (r_state r)) =
    cleared_files (default false (opt_clearFile o)) p (files (world st)) /\
  stdout (world (r_state r)) = stdout (world st) /\
  ticks (world (r_state r)) = ticks (world st).
Proof.
  intros Hfile Hpath Hne. destruct st as [w l].
  apply String.eqb_neq in Hne.
  unfold constructor, existsSync, unlinkSync, writeFileSync, on_world,
    cleared_files, configured, bind, gets, modify, emit, ret.
  simpl. rewrite Hfile, Hpath. simpl. rewrite !Hne. simpl.
  destruct (bool_decide (is_Some (files w !! p))); simpl;
    destruct (default false (opt_clearFile o)); simpl; repeat split.
Qed.

(** [C2] Constructing a logger with the file sink enabled and a path set
    (present and not empty), whatever the file system holds before and in
    particular when a file already exists at the path: the constructor
    returns normally, and right after it the file at the path exists and is
    empty if the clear option is true, and does not exist if the clear option
    is false or absent.  No other file is touched. *)
Theorem C2_constructor_file_handling (st : State) (o : Options) (p : string) :
  opt_logToFile o = Some true ->
  opt_logFilePath o = Some p ->
  p <> EmptyString ->
  let r := constructor (Some o) st in
  r_value r = inl tt /\
  (opt_clearFile o = Some true ->
   files (world (r_state r)) !! p = Some EmptyString) /\
  (opt_clearFile o = Some false \/ opt_clearFile o = None ->
   files (world (r_state r)) !! p = None) /\
  (forall q, q <> p ->
   files (world (r_state r)) !! q = files (world st) !! q).
Proof.
  intros Hfile Hpath Hne r.
  assert (Hfile' : default false (opt_logToFile o) = true) by now rewrite Hfile.
  destruct (constructor_with_path st o p Hfile' Hpath Hne)
    as (Hval & _ & Hfiles & _).
  fold r in Hval, Hfiles. rewrite Hfiles. unfold cleared_files.
  split; [exact Hval|]. split; [|split].
  - intros ->. simpl. apply lookup_insert_eq.
  - intros Hclear.
    assert (Hno : default false (opt_clearFile o) = false)
      by (destruct Hclear as [-> | ->]; reflexivity).
    rewrite Hno. case_bool_decide as Hpresent.
    + apply lookup_delete_eq.
    + destruct (files (world st) !! p) eqn:E; [|reflexivity].
      exfalso. apply Hpresent. eauto.
  - intros q Hq.
    destruct (default false (opt_clearFile o)); case_bool_decide;
      rewrite ?lookup_insert_ne, ?lookup_delete_ne by congruence; reflexivity.
Qed.

(** ** The console scenario *)

Lemma constructor_console_at_info (st : State) :
  constructor (Some console_at_info) st =
  mkResult (mkState (world st) (mkLogger false true None 1 false ∅)) []
           (inl tt).
Proof. destruct st as [w l]. reflexivity. Qed.

(** [C3] amended.  On a logger constructed with [{ logToConsole: true,
    level: 1 }]: [debug("x")] returns normally, performs no action and leaves
    the state, hence standard output, unchanged; [info("x")] returns
    normally and makes one call of [console.log], and no other action, whose
    argument is the timestamp, then " [INFO] x", then one line feed.  As
    [console.log] ends what it writes with a line feed of its own, standard
    output grows by that argument followed by a second line feed. *)
Theorem C3_console_scenario_amended (st : State) :
  let st0 := r_state (constructor (Some console_at_info) st) in
  let ts := toISOString (ticks (world st)) in
  debug [VStr "x"] st0 = mkResult st0 [] (inl tt) /\
  r_value (info [VStr "x"] st0) = inl tt /\
  r_trace (info [VStr "x"] st0) = [EvConsoleLog (ts +:+ " [INFO] x" +:+ LF)] /\
  stdout (world (r_state (info [VStr "x"] st0))) =
    stdout (world st) +:+ (ts +:+ " [INFO] x" +:+ LF) +:+ LF.
Proof.
  intros st0 ts. unfold st0. rewrite constructor_console_at_info.
  destruct st as [w l]. repeat split.
Qed.

(** ** Agreement with the previous revision *)

Lemma after_cb_agrees (st : State) (st' : Legacy.State) (s : Severity)
    (message : list Value) :
  corresponds st st' ->
  let r := after_cb s message st in
  let r' := Legacy.method fn_source toISOString s message st' in
  r_trace r = r_trace r' /\
  r_value r = r_value r' /\
  corresponds (r_state r) (r_state r') /\
  this (r_state r) = this st /\
  (files (world st) = files (Legacy.world st') ->
   files (world (r_state r)) = files (Legacy.world (r_state r'))).
Proof.
  intros [(Hf & Hc & Hp & Hl) [Hout Htick]].
  destruct st as [[fs out tk] [lf lc lp lv clr cbs]].
  destruct st' as [[fs' out' tk'] [lf' lc' lp' lv']].
  simpl in Hf, Hc, Hp, Hl, Hout, Htick. subst lf' lc' lp' lv' out' tk'.
  unfold after_cb, priv_log, priv_getFormattedDate, priv_logToFile,
    priv_logToConsole, priv_getFormattedMessage.
  destruct s;
    unfold Legacy.method, Legacy.debug, Legacy.info, Legacy.warn, Legacy.error,
      Legacy.priv_log, Legacy.priv_getFormattedDate, Legacy.priv_logToFile,
      Legacy.priv_logToConsole, Legacy.priv_getFormattedMessage,
      new_Date, console_log, appendFileSync, on_world, corresponds, same_config,
      bind, gets, modify, emit, ret, throw;
    simpl;
    destruct (lv >? _); simpl;
    destruct lf; simpl;
    try (destruct lp as [p|]; simpl; [destruct (negb (p =? EmptyString)%string)|]; simpl);
    destruct lc; simpl; repeat split; try congruence.
Qed.

Lemma method_agrees (st : State) (st' : Legacy.State) (s : Severity)
    (message : list Value) :
  corresponds st st' ->
  no_callbacks (this st) ->
  let r := method s message st in
  let r' := Legacy.method fn_source toISOString s message st' in
  r_trace r = r_trace r' /\
  r_value r = r_value r' /\
  corresponds (r_state r) (r_state r') /\
  this (r_state r) = this st /\
  (files (world st) = files (Legacy.world st') ->
   files (world (r_state r)) = files (Legacy.world (r_state r'))).
Proof.
  intros Hcorr Hnone. rewrite method_unfold.
  assert (Hcb : run_cb (LOG_TYPES s) message st = ret tt st)
    by (apply run_cb_none, Hnone).
  rewrite (bind_step _ _ st st [] tt Hcb). cbn [app r_trace r_value r_state].
  now apply after_cb_agrees.
Qed.

Lemma run_calls_agree (calls : list (Severity * list Value)) :
  forall (st : State) (st' : Legacy.State),
    corresponds st st' ->
    no_callbacks (this st) ->
    snd (run_calls calls st) =
      snd (Legacy.run_calls fn_source toISOString calls st') /\
    corresponds (fst (run_calls calls st))
      (fst (Legacy.run_calls fn_source toISOString calls st')) /\
    (files (world st) = files (Legacy.world st') ->
     files (world (fst (run_calls calls st))) =
     files (Legacy.world (fst (Legacy.run_calls fn_source toISOString calls st')))).
Proof.
  induction calls as [|[s message] rest IH]; intros st st' Hcorr Hnone.
  - simpl. split; [reflexivity|]. split; [exact Hcorr|]. intros Hsame.
    exact Hsame.
  - destruct (method_agrees st st' s message Hcorr Hnone)
      as (Htr & Hval & Hcorr1 & Hthis & Hfiles).
    assert (Hnone1 : no_callbacks (this (r_state (method s message st))))
      by now rewrite Hthis.
    destruct (IH _ _ Hcorr1 Hnone1) as (Hout & Hcorr2 & Hfiles2).
    cbn [run_calls Legacy.run_calls].
    destruct (run_calls rest (r_state (method s message st))) as [stA outsA].
    destruct (Legacy.run_calls fn_source toISOString rest
                (r_state (Legacy.method fn_source toISOString s message st')))
      as [stB outsB].
    cbn [fst snd] in *.
    split; [now rewrite Htr, Hval, Hout|].
    split; [exact Hcorr2|].
    intros Hsame. apply Hfiles2, Hfiles, Hsame.
Qed.

Lemma constructor_result (st : State) (o : Options) :
  let r := constructor (Some o) st in
  r_value r = inl tt /\
  this (r_state r) = configured o /\
  stdout (world (r_state r)) = stdout (world st) /\
  ticks (world (r_state r)) = ticks (world st).
Proof.
  destruct st as [w l]. destruct o as [f c p lvl clr].
  unfold constructor, existsSync, unlinkSync, writeFileSync, on_world,
    configured, bind, gets, modify, emit, ret.
  simpl.
  destruct p as [p|]; simpl; [|repeat split].
  destruct (p =? EmptyString)%string eqn:E; simpl; [repeat split|].
  rewrite ?E. simpl.
  destruct (default false f); simpl; [|repeat split].
  destruct (bool_decide (is_Some (files w !! p))); simpl;
    destruct (default false clr); simpl; repeat split.
Qed.

Lemma constructors_correspond (o : Options) (w : World) (l0 : Logger)
    (l0' : Legacy.Logger) :
  let st := r_state (constructor (Some o) (mkState w l0)) in
  let st' := r_state (Legacy.constructor (Some o) (Legacy.mkState w l0')) in
  corresponds st st' /\ no_callbacks (this st).
Proof.
  intros st st'.
  destruct (constructor_result (mkState w l0) o) as (_ & Hthis & Hout & Htick).
  fold st in Hthis, Hout, Htick. simpl in Hout, Htick.
  unfold corresponds, same_config, no_callbacks.
  rewrite Hthis, Hout, Htick. simpl. repeat split.
Qed.

(** [C10] On a logger without callbacks the four log methods of the current
    implementation and of the previous revision agree.  Starting from two
    states with the same configuration, console stream and clock, any series
    of calls gives, call by call, the same sink actions and the same
    completion (normal return or the same error); the final states again
    correspond, and if the files were equal at the start they are equal at
    the end.  This covers the loggers the two constructors build from the
    same options in the same world, for every choice of options. *)
Theorem C10_agrees_with_previous_revision
    (calls : list (Severity * list Value)) (st : State) (st' : Legacy.State) :
  corresponds st st' ->
  no_callbacks (this st) ->
  (snd (run_calls calls st) =
     snd (Legacy.run_calls fn_source toISOString calls st') /\
   corresponds (fst (run_calls calls st))
     (fst (Legacy.run_calls fn_source toISOString calls st')) /\
   (files (world st) = files (Legacy.world st') ->
    files (world (fst (run_calls calls st))) =
    files (Legacy.world (fst (Legacy.run_calls fn_source toISOString calls st'))))) /\
  (forall (o : Options) (w : World) (l0 : Logger) (l0' : Legacy.Logger),
     snd (run_calls calls (r_state (constructor (Some o) (mkState w l0)))) =
     snd (Legacy.run_calls fn_source toISOString calls
            (r_state (Legacy.constructor (Some o) (Legacy.mkState w l0'))))).
Proof.
  intros Hcorr Hnone. split.
  - now apply run_calls_agree.
  - intros o w l0 l0'.
    destruct (constructors_correspond o w l0 l0') as [Hc Hn].
    now apply run_calls_agree.
Qed.

(** ** Further properties: one call *)

Lemma ready_or_not (l : Logger) :
  file_sink_ready l \/
  (logToFile l = true /\ path_set (logFilePath l) = false).
Proof.
  unfold file_sink_ready.
  destruct (logToFile l); [|left; discriminate].
  destruct (path_set (logFilePath l)); [left | right]; auto.
Qed.

(** The three ways the rest of a method can end: filtered out, emitted, or
    stopped by the file sink after the Date was constructed. *)
Lemma after_cb_cases (s : Severity) (message : list Value) (st : State) :
  after_cb s message st = mkResult st [] (inl tt) \/
  (file_sink_ready (this st) /\
   after_cb s message st =
   mkResult
     (mkState (emitted_world (this st) (line s message (ticks (world st)))
                 (world st)) (this st))
     (emitted_trace (this st) (line s message (ticks (world st)))) (inl tt)) \/
  after_cb s message st =
    mkResult (mkState (ticked (world st)) (this st)) [] (inr no_path_error).
Proof.
  destruct (Z.lt_ge_cases (LOG_LEVELS s) (level (this st))) as [Hlt|Hge].
  - left. now apply after_cb_filtered.
  - right. rewrite after_cb_passes by lia.
    destruct (ready_or_not (this st)) as [Hready|[Hfile Hpath]].
    + left. split; [exact Hready|]. now apply priv_log_ready.
    + right. now apply priv_log_no_path.
Qed.

(** A method without a callback for its severity, on a usable file sink. *)
Lemma method_plain (st : State) (s : Severity) (message : list Value) :
  cb (this st) !! LOG_TYPES s = None ->
  file_sink_ready (this st) ->
  method s message st =
  if LOG_LEVELS s <? level (this st)
  then mkResult st [] (inl tt)
  else
    let ln := line s message (ticks (world st)) in
    mkResult (mkState (emitted_world (this st) ln (world st)) (this st))
             (emitted_trace (this st) ln) (inl tt).
Proof.
  intros Hnone Hready.
  assert (Hcb : run_cb (LOG_TYPES s) message st = mkResult st [] (inl tt))
    by now apply run_cb_none.
  assert (Hnormal : r_value (run_cb (LOG_TYPES s) message st) = inl tt)
    by now rewrite Hcb.
  assert (Hready' : file_sink_ready (this (r_state (run_cb (LOG_TYPES s) message st))))
    by now rewrite Hcb.
  rewrite (method_result st s message Hnormal Hready'). rewrite Hcb.
  cbn [r_state r_trace app]. reflexivity.
Qed.

(** [X1] The log methods never change the logger object: after a call, the
    configuration and the table of callbacks are those the callback
    statement left, so only user code run as a callback (or [on]) can change
    them.  Without a callback for the severity the object is the one the
    call started with. *)
Theorem X1_methods_keep_logger_object (st : State) (s : Severity)
    (message : list Value) :
  this (r_state (method s message st)) =
    this (r_state (run_cb (LOG_TYPES s) message st)) /\
  (cb (this st) !! LOG_TYPES s = None ->
   this (r_state (method s message st)) = this st).
Proof.
  assert (Hkeep :
    this (r_state (method s message st)) =
    this (r_state (run_cb (LOG_TYPES s) message st))).
  { rewrite method_unfold.
    destruct (r_value (run_cb (LOG_TYPES s) message st)) as [[]|e] eqn:Hv.
    - rewrite (bind_normal _ _ _ tt Hv). cbn [r_state].
      destruct (after_cb_cases s message
                  (r_state (run_cb (LOG_TYPES s) message st)))
        as [H|[[_ H]|H]]; rewrite H; reflexivity.
    - rewrite (bind_abrupt _ _ _ e Hv). reflexivity. }
  split; [exact Hkeep|].
  intros Hnone. rewrite Hkeep. now rewrite run_cb_none.
Qed.

(** [X2] A minimum level above ERROR switches the sinks off: whatever the
    severity and the configuration of the sinks (even a file sink without a
    path), a call without a callback for its severity returns normally,
    performs no action and leaves the state unchanged. *)
Theorem X2_level_above_error_is_silent (st : State) (s : Severity)
    (message : list Value) :
  LOG_LEVELS ERROR < level (this st) ->
  cb (this st) !! LOG_TYPES s = None ->
  method s message st = mkResult st [] (inl tt).
Proof.
  intros Hlevel Hnone. rewrite method_unfold.
  rewrite (bind_step _ _ st st [] tt (run_cb_none _ _ _ Hnone)).
  assert (Hlt : LOG_LEVELS s < level (this st))
    by (destruct s; simpl in *; lia).
  now rewrite after_cb_filtered.
Qed.

(** [X3] A minimum level of DEBUG or less lets every severity through: on a
    logger with a usable file sink, a call without a callback for its
    severity emits its line to each enabled sink, the file first and the
    console second, and returns normally. *)
Theorem X3_level_debug_passes_everything (st : State) (s : Severity)
    (message : list Value) :
  level (this st) <= LOG_LEVELS DEBUG ->
  cb (this st) !! LOG_TYPES s = None ->
  file_sink_ready (this st) ->
  let ln := line s message (ticks (world st)) in
  method s message st =
  mkResult (mkState (emitted_world (this st) ln (world st)) (this st))
           (emitted_trace (this st) ln) (inl tt).
Proof.
  intros Hlevel Hnone Hready ln.
  rewrite (method_plain st s message Hnone Hready).
  assert (Hge : (LOG_LEVELS s <? level (this st)) = false)
    by (apply Z.ltb_ge; destruct s; simpl in *; lia).
  now rewrite Hge.
Qed.

(** [X4] With both sinks enabled and a path [p], a call that passes the
    filter hands the same line to both sinks, the file before the console:
    the file at [p] grows by the line (it is created if missing), standard
    output grows by the line and the line feed of [console.log], one Date is
    constructed and every other file is untouched. *)
Theorem X4_both_sinks_same_line_file_first (st : State) (s : Severity)
    (message : list Value) (p : string) :
  cb (this st) !! LOG_TYPES s = None ->
  logToFile (this st) = true ->
  logToConsole (this st) = true ->
  logFilePath (this st) = Some p ->
  p <> EmptyString ->
  level (this st) <= LOG_LEVELS s ->
  let ln := line s message (ticks (world st)) in
  let r := method s message st in
  r_value r = inl tt /\
  r_trace r = [EvAppendFile p ln; EvConsoleLog ln] /\
  files (world (r_state r)) !! p =
    Some (default EmptyString (files (world st) !! p) +:+ ln) /\
  (forall q, q <> p -> files (world (r_state r)) !! q = files (world st) !! q) /\
  stdout (world (r_state r)) = stdout (world st) +:+ ln +:+ LF /\
  ticks (world (r_state r)) = S (ticks (world st)).
Proof.
  intros Hnone Hfile Hconsole Hpath Hne Hlevel ln r. unfold r.
  assert (Hready : file_sink_ready (this st)).
  { intros _. rewrite Hpath. simpl. apply negb_true_iff.
    now apply String.eqb_neq. }
  rewrite (method_plain st s message Hnone Hready).
  assert (Hge : (LOG_LEVELS s <? level (this st)) = false)
    by (apply Z.ltb_ge; lia).
  rewrite Hge. cbv zeta. fold ln.
  unfold emitted_trace, emitted_world. rewrite Hfile, Hconsole, Hpath.
  cbn [r_value r_trace r_state world files stdout ticks app].
  repeat split.
  - apply lookup_insert_eq.
  - intros q Hq. apply lookup_insert_ne. congruence.
Qed.

(** [X5] When the file sink has no path, a call that passes the filter
    fails after the Date has been constructed and before anything is
    written: besides the clock, the state is the one the callback statement
    left (files, standard output and logger object). *)
Theorem X5_missing_path_writes_nothing (st : State) (s : Severity)
    (message : list Value) :
  let r0 := run_cb (LOG_TYPES s) message st in
  let st1 := r_state r0 in
  r_value r0 = inl tt ->
  logToFile (this st1) = true ->
  path_set (logFilePath (this st1)) = false ->
  level (this st1) <= LOG_LEVELS s ->
  r_state (method s message st) = mkState (ticked (world st1)) (this st1) /\
  files (world (r_state (method s message st))) = files (world st1) /\
  stdout (world (r_state (method s message st))) = stdout (world st1).
Proof.
  intros r0 st1 Hnormal Hfile Hpath Hlevel.
  rewrite method_unfold. rewrite (bind_normal _ _ _ tt Hnormal).
  fold r0. fold st1. cbn [r_state].
  rewrite after_cb_passes by lia.
  rewrite (priv_log_no_path _ _ _ Hfile Hpath). repeat split.
Qed.

(** ** Further properties: series of calls *)

Lemma world_after_cons (l : Logger) (ln : string) (lines : list string)
    (w : World) :
  world_after l (ln :: lines) w = world_after l lines (emitted_world l ln w).
Proof. reflexivity. Qed.

(** A series of calls on a logger without callbacks and with a usable file
    sink: nothing throws, the logger object stays, and the world is the one
    obtained by emitting the lines of the calls that pass, in order. *)
Lemma run_calls_world (calls : list (Severity * list Value)) :
  forall st : State,
    no_callbacks (this st) ->
    file_sink_ready (this st) ->
    let lines := emitted_lines (level (this st)) (ticks (world st)) calls in
    fst (run_calls calls st) =
      mkState (world_after (this st) lines (world st)) (this st) /\
    Forall (fun outcome => snd outcome = inl tt) (snd (run_calls calls st)).
Proof.
  induction calls as [|[s message] rest IH]; intros st Hnone Hready.
  - destruct st as [w l]. split; [reflexivity | constructor].
  - cbn [run_calls emitted_lines].
    rewrite (method_plain st s message (Hnone s) Hready).
    destruct (LOG_LEVELS s <? level (this st)) eqn:E.
    + cbn [r_state r_trace r_value].
      destruct (IH st Hnone Hready) as [Hst Hall].
      destruct (run_calls rest st) as [st' outs]. cbn [fst snd] in *.
      split; [exact Hst | now constructor].
    + cbv zeta. cbn [r_state r_trace r_value].
      set (st1 := mkState _ (this st)).
      assert (Hnone1 : no_callbacks (this st1)) by exact Hnone.
      assert (Hready1 : file_sink_ready (this st1)) by exact Hready.
      destruct (IH st1 Hnone1 Hready1) as [Hst Hall].
      destruct (run_calls rest st1) as [st' outs]. cbn [fst snd] in *.
      split; [|now constructor].
      rewrite Hst. unfold st1. cbn [this world emitted_world ticks].
      rewrite world_after_cons. reflexivity.
Qed.

Lemma world_after_stdout (l : Logger) (lines : list string) :
  forall w : World,
    stdout (world_after l lines w) =
    if logToConsole l then stdout w +:+ console_bytes lines else stdout w.
Proof.
  induction lines as [|ln rest IH]; intros w.
  - cbn. destruct (logToConsole l); [now rewrite append_nil_r | reflexivity].
  - rewrite world_after_cons, IH. unfold emitted_world. cbn [stdout].
    destruct (logToConsole l); [|reflexivity].
    unfold console_bytes. cbn [List.map concat_all fold_right].
    now rewrite !append_assoc.
Qed.

Lemma world_after_ticks (l : Logger) (lines : list string) :
  forall w : World,
    ticks (world_after l lines w) = (ticks w + length lines)%nat.
Proof.
  induction lines as [|ln rest IH]; intros w.
  - cbn. lia.
  - rewrite world_after_cons, IH. cbn. lia.
Qed.

Lemma world_after_files_off (l : Logger) (lines : list string) :
  logToFile l = false ->
  forall w : World, files (world_after l lines w) = files w.
Proof.
  intros Hoff. induction lines as [|ln rest IH]; intros w; [reflexivity|].
  rewrite world_after_cons, IH. unfold emitted_world. now rewrite Hoff.
Qed.

Lemma world_after_files_on (l : Logger) (p : string) (lines : list string) :
  logToFile l = true ->
  logFilePath l = Some p ->
  forall w : World,
    lines <> [] ->
    files (world_after l lines w) =
    <[p := default EmptyString (files w !! p) +:+ concat_all lines]> (files w).
Proof.
  intros Hon Hpath. induction lines as [|ln rest IH]; intros w Hne;
    [congruence|].
  rewrite world_after_cons.
  destruct rest as [|ln' rest'].
  - cbn. rewrite Hon, Hpath. now rewrite append_nil_r.
  - rewrite IH by discriminate.
    unfold emitted_world at 1 2. rewrite Hon, Hpath. cbn [files].
    rewrite lookup_insert_eq, insert_insert_eq. cbn [default].
    f_equal. change (concat_all (ln :: ln' :: rest'))
      with (ln +:+ concat_all (ln' :: rest')).
    unfold id. now rewrite append_assoc.
Qed.

(** [X6] Console output of a series of calls.  On a logger without
    callbacks, with the console sink enabled and a usable file sink, no call
    of the series throws, and standard output grows by the lines of the
    calls that pass the filter, in the order of the calls, each followed by
    the line feed of [console.log]; the k-th of these lines carries the
    timestamp of the k-th Date constructed, and calls below the minimum
    construct none. *)
Theorem X6_console_output_of_a_series
    (calls : list (Severity * list Value)) (st : State) :
  no_callbacks (this st) ->
  file_sink_ready (this st) ->
  logToConsole (this st) = true ->
  let lines := emitted_lines (level (this st)) (ticks (world st)) calls in
  let st' := fst (run_calls calls st) in
  Forall (fun outcome => snd outcome = inl tt) (snd (run_calls calls st)) /\
  stdout (world st') = stdout (world st) +:+ console_bytes lines /\
  ticks (world st') = (ticks (world st) + length lines)%nat /\
  this st' = this st.
Proof.
  intros Hnone Hready Hconsole lines st'.
  destruct (run_calls_world calls st Hnone Hready) as [Hst Hall].
  fold lines in Hst. unfold st'. rewrite Hst. cbn [world this].
  rewrite world_after_stdout, world_after_ticks, Hconsole. repeat split.
  exact Hall.
Qed.

(** [X7] The log file after a series of calls.  On a logger without
    callbacks whose file sink is enabled with path [p], the file at [p] is
    only ever appended to: after the series it holds what it held before
    (nothing, if it did not exist) followed by the lines of the calls that
    pass the filter, in order and without separator; if no call passes it is
    left as it was, not even created.  No other file changes. *)
Theorem X7_log_file_of_a_series
    (calls : list (Severity * list Value)) (st : State) (p : string) :
  no_callbacks (this st) ->
  logToFile (this st) = true ->
  logFilePath (this st) = Some p ->
  p <> EmptyString ->
  let lines := emitted_lines (level (this st)) (ticks (world st)) calls in
  let st' := fst (run_calls calls st) in
  (lines = [] -> files (world st') = files (world st)) /\
  (lines <> [] ->
   files (world st') !! p =
     Some (default EmptyString (files (world st) !! p) +:+ concat_all lines)) /\
  (forall q, q <> p -> files (world st') !! q = files (world st) !! q).
Proof.
  intros Hnone Hfile Hpath Hne lines st'.
  assert (Hready : file_sink_ready (this st)).
  { intros _. rewrite Hpath. simpl. apply negb_true_iff.
    now apply String.eqb_neq. }
  destruct (run_calls_world calls st Hnone Hready) as [Hst _].
  fold lines in Hst. unfold st'. rewrite Hst. cbn [world].
  split; [|split].
  - intros ->. reflexivity.
  - intros Hlines.
    rewrite (world_after_files_on _ p lines Hfile Hpath _ Hlines).
    apply lookup_insert_eq.
  - intros q Hq. destruct lines as [|ln rest]; [reflexivity|].
    rewrite (world_after_files_on _ p (ln :: rest) Hfile Hpath) by discriminate.
    apply lookup_insert_ne. congruence.
Qed.

(** ** Further properties: construction *)

(** [X8] The constructor touches the files only when the file sink is
    enabled and a non-empty path is given.  Otherwise, whatever the clear
    option says, it returns normally and leaves the world (files, standard
    output, clock) exactly as it was; an empty string as path counts as no
    path. *)
Theorem X8_constructor_without_file_sink_keeps_world (st : State) (o : Options) :
  default false (opt_logToFile o) = false \/
  opt_logFilePath o = None \/ opt_logFilePath o = Some EmptyString ->
  constructor (Some o) st = mkResult (mkState (world st) (configured o)) [] (inl tt).
Proof.
  intros Hoff. destruct st as [w l]. destruct o as [f c p lvl clr].
  cbn [opt_logToFile opt_logFilePath] in Hoff.
  unfold constructor, configured, bind, gets, modify, ret.
  cbn [opt_logToFile opt_logToConsole opt_logFilePath opt_level opt_clearFile
       world this logFilePath logToFile].
  destruct Hoff as [Hf|[->| ->]].
  - rewrite Hf. cbn [orb].
    destruct (or_undefined p) as [path|]; reflexivity.
  - reflexivity.
  - reflexivity.
Qed.

(** [X9] The first write of a new logger starts the file afresh.  After
    construction with the file sink enabled and a non-empty path [p], with
    or without the clear option, the first call that passes the filter
    leaves at [p] exactly its own line, whatever the file held before the
    logger was constructed. *)
Theorem X9_first_write_after_construction (st : State) (o : Options)
    (p : string) (s : Severity) (message : list Value) :
  opt_logToFile o = Some true ->
  opt_logFilePath o = Some p ->
  p <> EmptyString ->
  level (configured o) <= LOG_LEVELS s ->
  let st0 := r_state (constructor (Some o) st) in
  let r := method s message st0 in
  r_value r = inl tt /\
  files (world (r_state r)) !! p = Some (line s message (ticks (world st))).
Proof.
  intros Hfile Hpath Hne Hlevel st0 r.
  assert (Hfile' : default false (opt_logToFile o) = true) by now rewrite Hfile.
  destruct (constructor_with_path st o p Hfile' Hpath Hne)
    as (_ & Hthis & Hfiles & _ & Hticks).
  fold st0 in Hthis, Hfiles, Hticks.
  assert (Hp : logFilePath (this st0) = Some p).
  { rewrite Hthis. unfold configured. cbn [logFilePath]. rewrite Hpath.
    cbn [or_undefined]. apply String.eqb_neq in Hne. now rewrite Hne. }
  assert (Hf : logToFile (this st0) = true).
  { rewrite Hthis. unfold configured. cbn [logToFile]. now rewrite Hfile. }
  assert (Hnone : cb (this st0) !! LOG_TYPES s = None)
    by (rewrite Hthis; apply lookup_empty).
  assert (Hready : file_sink_ready (this st0)).
  { intros _. rewrite Hp. simpl. apply negb_true_iff.
    now apply String.eqb_neq. }
  unfold r. rewrite (method_plain st0 s message Hnone Hready).
  assert (Hge : (LOG_LEVELS s <? level (this st0)) = false)
    by (apply Z.ltb_ge; rewrite Hthis; lia).
  rewrite Hge. cbv zeta. cbn [r_value r_state world].
  split; [reflexivity|].
  unfold emitted_world. rewrite Hf, Hp. cbn [files].
  rewrite lookup_insert_eq, Hticks, Hfiles. f_equal.
  unfold cleared_files.
  destruct (default false (opt_clearFile o)).
  - now rewrite lookup_insert_eq.
  - case_bool_decide as Hpresent.
    + now rewrite lookup_delete_eq.
    + destruct (files (world st) !! p) eqn:E; [|reflexivity].
      exfalso. apply Hpresent. eauto.
Qed.

(** [X10] The previous revision keeps the history of the file.  Its
    constructor leaves the world as it is, and the first call that passes
    the filter appends its line to what the file at the path held before
    the logger was constructed. *)
Theorem X10_previous_revision_appends_to_old_file (st : Legacy.State)
    (o : Options) (p : string) (s : Severity) (message : list Value) :
  opt_logToFile o = Some true ->
  opt_logFilePath o = Some p ->
  p <> EmptyString ->
  match opt_level o with None => LOG_LEVELS INFO | Some l => l end
    <= LOG_LEVELS s ->
  let st0 := r_state (Legacy.constructor (Some o) st) in
  let r := Legacy.method fn_source toISOString s message st0 in
  Legacy.world st0 = Legacy.world st /\
  r_value r = inl tt /\
  files (Legacy.world (r_state r)) !! p =
    Some (default EmptyString (files (Legacy.world st) !! p) +:+
          line s message (ticks (Legacy.world st))).
Proof.
  intros Hfile Hpath Hne Hlevel st0 r.
  assert (Hctor :
    Legacy.constructor (Some o) st =
    mkResult
      (Legacy.mkState (Legacy.world st)
         (Legacy.mkLogger true (default false (opt_logToConsole o) || false)
            (Some p)
            (match opt_level o with None => LOG_LEVELS INFO | Some l => l end)))
      [] (inl tt)).
  { unfold Legacy.constructor, modify. rewrite Hfile, Hpath.
    cbn [default or_undefined orb]. apply String.eqb_neq in Hne.
    now rewrite Hne. }
  unfold r, st0. rewrite Hctor. cbn [r_state Legacy.world].
  split; [reflexivity|].
  set (lvl := match opt_level o with None => LOG_LEVELS INFO | Some l => l end)
    in *.
  set (lc := default false (opt_logToConsole o) || false).
  set (st' := Legacy.mkState (Legacy.world st) (Legacy.mkLogger true lc (Some p) lvl)).
  set (stc := mkState (Legacy.world st) (mkLogger true lc (Some p) lvl false ∅)).
  assert (Hcorr : corresponds stc st') by (repeat split).
  assert (Hnone : no_callbacks (this stc)) by (intros s'; apply lookup_empty).
  destruct (method_agrees stc st' s message Hcorr Hnone)
    as (_ & Hval & _ & _ & Hfiles).
  rewrite <- Hval, <- (Hfiles eq_refl).
  assert (Hready : file_sink_ready (this stc)).
  { intros _. simpl. apply negb_true_iff. now apply String.eqb_neq. }
  rewrite (method_plain stc s message (Hnone s) Hready).
  assert (Hge : (LOG_LEVELS s <? level (this stc)) = false)
    by (apply Z.ltb_ge; simpl; lia).
  rewrite Hge. cbv zeta. cbn [r_value r_state world].
  split; [reflexivity|]. unfold emitted_world, stc. cbn [this logToFile logFilePath files world].
  apply lookup_insert_eq.
Qed.

(** ** Further properties: registration *)

Lemma LOG_TYPES_inj (s s' : Severity) : LOG_TYPES s = LOG_TYPES s' -> s = s'.
Proof. destruct s, s'; simpl; intros H; first [reflexivity | discriminate H]. Qed.

(** [on] either does nothing or stores a function under a severity name. *)
Lemma on_cases (level_ cb_ : Value) (st : State) :
  on level_ cb_ st = mkResult st [] (inl tt) \/
  exists s f,
    level_ = VStr (LOG_TYPES s) /\ cb_ = VFun f /\
    on level_ cb_ st =
    mkResult (mkState (world st) (set_cb (LOG_TYPES s) (VFun f) (this st)))
             [] (inl tt).
Proof.
  destruct (includes LOG_TYPES_values level_) eqn:Hinc.
  - destruct (String.eqb (typeof cb_) "function") eqn:Hfun.
    + right. apply includes_LOG_TYPES in Hinc as [s ->].
      apply typeof_function in Hfun as [f ->].
      exists s, f. repeat split. apply on_registers.
    + left. unfold on. now rewrite Hinc, Hfun.
  - left. unfold on. now rewrite Hinc.
Qed.

(** The rest of a method does not look at the table of callbacks. *)
Lemma after_cb_set_cb (s : Severity) (message : list Value) (w : World)
    (l : Logger) (key : string) (v : Value) :
  let r := after_cb s message (mkState w l) in
  after_cb s message (mkState w (set_cb key v l)) =
  mkResult (mkState (world (r_state r)) (set_cb key v l)) (r_trace r) (r_value r).
Proof.
  cbv zeta.
  destruct (Z.lt_ge_cases (LOG_LEVELS s) (level l)) as [Hlt|Hge].
  - rewrite !after_cb_filtered by exact Hlt. reflexivity.
  - rewrite !after_cb_passes by exact Hge.
    destruct (ready_or_not l) as [Hready|[Hfile Hpath]].
    + rewrite !priv_log_ready by exact Hready. reflexivity.
    + rewrite !priv_log_no_path by assumption. reflexivity.
Qed.

(** [X11] Registering a callback for one severity concerns that severity
    only.  [on(s, f)] leaves the world, the configuration and the entries of
    the other names as they are; and a call of another severity [s'] that has
    no callback performs the same actions, completes the same way and leaves
    the same world as it would have without the registration. *)
Theorem X11_on_concerns_one_severity (st : State) (s s' : Severity) (f : nat)
    (message : list Value) :
  s' <> s ->
  cb (this st) !! LOG_TYPES s' = None ->
  let st1 := r_state (on (VStr (LOG_TYPES s)) (VFun f) st) in
  world st1 = world st /\
  (forall key, key <> LOG_TYPES s -> cb (this st1) !! key = cb (this st) !! key) /\
  r_trace (method s' message st1) = r_trace (method s' message st) /\
  r_value (method s' message st1) = r_value (method s' message st) /\
  world (r_state (method s' message st1)) = world (r_state (method s' message st)).
Proof.
  intros Hne Hnone st1. unfold st1. rewrite on_registers. cbn [r_state world].
  split; [reflexivity|]. split.
  - intros key Hkey. cbn. apply lookup_insert_ne. congruence.
  - set (st2 := mkState (world st) (set_cb (LOG_TYPES s) (VFun f) (this st))).
    assert (Hnone2 : cb (this st2) !! LOG_TYPES s' = None).
    { cbn. rewrite lookup_insert_ne; [exact Hnone|].
      intros Heq. apply Hne. symmetry. now apply LOG_TYPES_inj. }
    rewrite !method_unfold.
    rewrite (bind_step _ _ st2 st2 [] tt (run_cb_none _ _ _ Hnone2)).
    rewrite (bind_step _ _ st st [] tt (run_cb_none _ _ _ Hnone)).
    cbn [app r_trace r_value r_state]. unfold st2.
    rewrite after_cb_set_cb. destruct st as [w l]. cbn [world this].
    repeat split.
Qed.

(** [X12] Registrations for different severities are independent of their
    order, and repeating a registration changes nothing. *)
Theorem X12_registrations_commute (st : State) (s s' : Severity) (f g : nat) :
  (s <> s' ->
   r_state (on (VStr (LOG_TYPES s')) (VFun g)
              (r_state (on (VStr (LOG_TYPES s)) (VFun f) st))) =
   r_state (on (VStr (LOG_TYPES s)) (VFun f)
              (r_state (on (VStr (LOG_TYPES s')) (VFun g) st)))) /\
  r_state (on (VStr (LOG_TYPES s)) (VFun f)
             (r_state (on (VStr (LOG_TYPES s)) (VFun f) st))) =
  r_state (on (VStr (LOG_TYPES s)) (VFun f) st).
Proof.
  rewrite !on_registers. cbn [r_state world this]. unfold set_cb.
  cbn [logToFile logToConsole logFilePath level clearFile cb].
  split.
  - intros Hne. f_equal. f_equal. apply insert_insert_ne.
    intros Heq. apply Hne. now apply LOG_TYPES_inj.
  - f_equal. f_equal. apply insert_insert_eq.
Qed.

Lemma table_ok_on (level_ cb_ : Value) (st : State) :
  table_ok (this st) -> table_ok (this (r_state (on level_ cb_ st))).
Proof.
  intros Hok.
  destruct (on_cases level_ cb_ st) as [H|(s & f & _ & _ & H)]; rewrite H;
    [exact Hok|].
  intros key v. cbn. destruct (decide (key = LOG_TYPES s)) as [->|Hkey].
  - rewrite lookup_insert_eq. intros [= <-]. split; eauto.
  - rewrite lookup_insert_ne by congruence. apply Hok.
Qed.

Lemma on_keeps_rest (level_ cb_ : Value) (st : State) :
  let st1 := r_state (on level_ cb_ st) in
  world st1 = world st /\
  logToFile (this st1) = logToFile (this st) /\
  logToConsole (this st1) = logToConsole (this st) /\
  logFilePath (this st1) = logFilePath (this st) /\
  level (this st1) = level (this st) /\
  clearFile (this st1) = clearFile (this st).
Proof.
  destruct (on_cases level_ cb_ st) as [H|(s & f & _ & _ & H)]; cbv zeta;
    rewrite H; repeat split.
Qed.

Lemma register_all_invariant (regs : list (Value * Value)) :
  forall st : State,
    table_ok (this st) ->
    let st1 := register_all regs st in
    table_ok (this st1) /\
    world st1 = world st /\
    logToFile (this st1) = logToFile (this st) /\
    logToConsole (this st1) = logToConsole (this st) /\
    logFilePath (this st1) = logFilePath (this st) /\
    level (this st1) = level (this st).
Proof.
  induction regs as [|[level_ cb_] rest IH]; intros st Hok.
  - cbn. split; [exact Hok|]. repeat split.
  - cbn [register_all].
    destruct (on_keeps_rest level_ cb_ st) as (Hw & Hf & Hc & Hp & Hl & _).
    destruct (IH _ (table_ok_on level_ cb_ st Hok))
      as (Hok' & Hw' & Hf' & Hc' & Hp' & Hl').
    cbv zeta. split; [exact Hok'|]. repeat split; congruence.
Qed.

(** [X13] The table of callbacks only ever holds functions under the four
    severity names.  Whatever the options, and whatever the arguments of a
    series of calls of [on] made afterwards, the world and the configuration
    are those the constructor left, and the callback statement of a method
    either finds nothing and does nothing, or finds a function and calls it:
    it never tries to call something that is not a function. *)
Theorem X13_table_holds_functions_only (st : State) (o : Options)
    (regs : list (Value * Value)) (s : Severity) (message : list Value) :
  let st0 := r_state (constructor (Some o) st) in
  let st1 := register_all regs st0 in
  table_ok (this st1) /\
  world st1 = world st0 /\
  level (this st1) = level (configured o) /\
  (run_cb (LOG_TYPES s) message st1 = mkResult st1 [] (inl tt) \/
   exists f,
     cb (this st1) !! LOG_TYPES s = Some (VFun f) /\
     run_cb (LOG_TYPES s) message st1 =
     mkResult (fst (fn_call f message st1)) [EvCallback (VFun f) message]
       (match snd (fn_call f message st1) with
        | None => inl tt
        | Some e => inr e
        end)).
Proof.
  intros st0 st1.
  destruct (constructor_result st o) as (_ & Hthis & _). fold st0 in Hthis.
  assert (Hok0 : table_ok (this st0)).
  { rewrite Hthis. intros key v. cbn. rewrite lookup_empty. discriminate. }
  destruct (register_all_invariant regs st0 Hok0)
    as (Hok & Hw & _ & _ & _ & Hl).
  fold st1 in Hok, Hw, Hl.
  split; [exact Hok|]. split; [exact Hw|]. split; [now rewrite Hl, Hthis|].
  destruct (cb (this st1) !! LOG_TYPES s) as [v|] eqn:Hreg.
  - right. destruct (Hok _ _ Hreg) as [_ [f ->]].
    exists f. split; [reflexivity|]. now apply run_cb_fun.
  - left. now apply run_cb_none.
Qed.

(** ** Further properties: the rendered text *)

Lemma count_LF_sep_each (elems : list string) :
  count_LF (sep_each " " elems) = list_sum (List.map count_LF elems).
Proof.
  induction elems as [|e rest IH]; [reflexivity|].
  cbn [sep_each List.map list_sum]. rewrite !count_LF_append, IH. reflexivity.
Qed.

Lemma count_LF_tag (s : Severity) : count_LF (tag s) = 0%nat.
Proof. destruct s; reflexivity. Qed.

(** [X14] Line feeds are neither escaped nor added beyond the final one.
    The body rendered for a call ends with a line feed and contains as many
    line feeds as the conversions of its arguments, plus one; the whole line
    adds those of the timestamp.  So a call writes a single line to the file
    exactly when no argument (and not the timestamp) contains a line feed. *)
Theorem X14_line_feeds_of_a_line (s : Severity) (message : list Value)
    (k : nat) :
  ends_with LF (priv_getFormattedMessage message) = true /\
  count_LF (priv_getFormattedMessage message) = (arguments_LF message + 1)%nat /\
  count_LF (line s message k) =
    (count_LF (toISOString k) + arguments_LF message + 1)%nat /\
  ends_with LF (line s message k) = true.
Proof.
  assert (Hbody :
    count_LF (priv_getFormattedMessage message) = (arguments_LF message + 1)%nat).
  { unfold priv_getFormattedMessage, arguments_LF. rewrite join_concat.
    rewrite count_LF_append.
    destruct message as [|arg rest]; [reflexivity|].
    cbn [List.map]. rewrite concat_cons, count_LF_append, count_LF_sep_each.
    rewrite List.map_map. cbn [list_sum]. reflexivity. }
  split; [apply ends_with_append|]. split; [exact Hbody|]. split.
  - unfold line. rewrite !count_LF_append, Hbody, count_LF_tag.
    change (count_LF " [") with 0%nat. change (count_LF "] ") with 0%nat. lia.
  - unfold line, priv_getFormattedMessage.
    rewrite <- !append_assoc. apply ends_with_append.
Qed.

(** ** Further properties: what a call may invoke, what the constructor may delete *)

(** [X15] The only callback a method can invoke is the function stored under
    its own severity, with the arguments of the call: every callback
    invocation in the trace of a call is that one.  In particular a call of
    a severity without an entry invokes nothing, whatever is registered for
    the other severities. *)
Theorem X15_only_own_callback_is_invoked (st : State) (s : Severity)
    (message : list Value) (e : Event) :
  In e (r_trace (method s message st)) ->
  is_callback_event e = true ->
  exists f,
    e = EvCallback (VFun f) message /\
    cb (this st) !! LOG_TYPES s = Some (VFun f).
Proof.
  intros Hin He.
  assert (Hrun : In e (r_trace (run_cb (LOG_TYPES s) message st))).
  { revert Hin. rewrite method_unfold.
    destruct (r_value (run_cb (LOG_TYPES s) message st)) as [[]|exn] eqn:Hv.
    - rewrite (bind_normal _ _ _ tt Hv). cbn [r_trace].
      intros Hin. apply in_app_or in Hin as [Hin|Hin]; [exact Hin|].
      apply after_cb_trace in Hin. destruct e; discriminate.
    - rewrite (bind_abrupt _ _ _ exn Hv). cbn [r_trace]. auto. }
  revert Hrun. unfold run_cb. rewrite bind_gets.
  destruct (cb (this st) !! LOG_TYPES s) as [v|]; [|intros []].
  destruct (truthy v); [|intros []].
  unfold call. destruct v; try (intros []).
  destruct (fn_call f message st) as [st1 exn]. cbn [r_trace].
  intros [<-|[]]. now exists f.
Qed.

(** [X16] The constructor deletes and writes only the file at the
    configured path, and deletes it only if it exists: with the file sink
    enabled and a non-empty path [p], its actions are the deletion of [p]
    when a file is there, then the writing of an empty [p] when the clear
    option is on, and nothing else. *)
Theorem X16_constructor_actions (st : State) (o : Options) (p : string) :
  opt_logToFile o = Some true ->
  opt_logFilePath o = Some p ->
  p <> EmptyString ->
  r_trace (constructor (Some o) st) =
  (if bool_decide (is_Some (files (world st) !! p)) then [EvUnlink p] else []) ++
  (if default false (opt_clearFile o) then [EvWriteFile p EmptyString] else []).
Proof.
  intros Hfile Hpath Hne. destruct st as [w l].
  apply String.eqb_neq in Hne.
  unfold constructor, existsSync, unlinkSync, writeFileSync, on_world,
    bind, gets, modify, emit, ret.
  simpl. rewrite Hfile, Hpath. simpl. rewrite !Hne. simpl.
  destruct (bool_decide (is_Some (files w !! p))); simpl;
    destruct (default false (opt_clearFile o)); reflexivity.
Qed.

End Current.


(** ** Concrete instances *)

(** The sample states are the ones the constructor and [on] produce. *)
Lemma sample_states_reachable :
  r_state (constructor (Some opts_no_path) (fresh empty_world)) = st_no_path /\
  r_state (on sample_source (VStr "DEBUG") (VFun 1)
             (r_state (constructor (Some opts_no_path_error_level)
                         (fresh empty_world)))) = st_thrower /\
  r_state (constructor (Some opts_both) (fresh empty_world)) = st_both /\
  r_state (on sample_source (VStr "DEBUG") (VFun 2)
             (r_state (constructor (Some (mkOptions None (Some true) None None None))
                         (fresh empty_world)))) = st_readme_callback /\
  r_state (Legacy.constructor (Some opts_both)
             (Legacy.mkState empty_world (Legacy.mkLogger false false None 0))) =
    legacy_st_both.
Proof. repeat split; vm_compute; reflexivity. Qed.

(** The two constructors differ on the files: on a world with an old log
    file at the path, the current one deletes it and the previous one keeps
    it.  The log methods do not read the file, so their actions agree. *)
Lemma constructors_differ_on_files :
  files (world (r_state (constructor (Some opts_both) (fresh world_with_log))))
    !! "t.log" = None /\
  files (Legacy.world
           (r_state (Legacy.constructor (Some opts_both)
                       (Legacy.mkState world_with_log
                          (Legacy.mkLogger false false None 0)))))
    !! "t.log" = Some "old line".
Proof. split; vm_compute; reflexivity. Qed.

(** [C1] as stated fails.  After [new Logger({ logToFile: true,
    logToConsole: true })] the minimum is INFO and the console sink is
    enabled, yet [info("x")] throws "No log file path provided" from the file
    sink before the console is reached: the line reaches no sink although
    the severity is at least the minimum. *)
Lemma C1_counterexample :
  let r := method sample_source sample_call sample_clock INFO [VStr "x"] st_no_path in
  r_value r = inr no_path_error /\
  r_trace r = [] /\
  ~ filter_law sample_source sample_clock (this st_no_path)
      (ticks (world st_no_path)) INFO [VStr "x"] r.
Proof.
  cbv zeta. split; [vm_compute; reflexivity|]. split; [vm_compute; reflexivity|].
  intros (_ & Hconsole & _).
  assert (Hge : LOG_LEVELS INFO >= level (this st_no_path)) by (simpl; lia).
  apply (proj2 (Hconsole eq_refl)) in Hge.
  vm_compute in Hge. exact Hge.
Qed.

Lemma C1_filter_amended_witness :
  let r0 := run_cb sample_call (LOG_TYPES WARN) [VStr "x"] st_both in
  r_value r0 = inl tt /\
  file_sink_ready (this (r_state r0)) /\
  filter_law sample_source sample_clock (this st_both) 0%nat WARN [VStr "x"]
    (method sample_source sample_call sample_clock WARN [VStr "x"] st_both) /\
  files (world (r_state (method sample_source sample_call sample_clock WARN
                           [VStr "x"] st_both))) !! "t.log" =
    Some ("2024-05-01T12:00:00.000Z [WARN] x" +:+ LF).
Proof.
  cbv zeta.
  assert (Hnormal :
    r_value (run_cb sample_call (LOG_TYPES WARN) [VStr "x"] st_both) = inl tt)
    by (vm_compute; reflexivity).
  assert (Hready :
    file_sink_ready
      (this (r_state (run_cb sample_call (LOG_TYPES WARN) [VStr "x"] st_both))))
    by (intros _; vm_compute; reflexivity).
  split; [exact Hnormal|]. split; [exact Hready|].
  destruct (C1_filter_amended sample_source sample_call sample_clock st_both
              WARN [VStr "x"] Hnormal Hready) as [Hlaw Hstate].
  split; [exact Hlaw|]. rewrite Hstate. vm_compute. reflexivity.
Defined.

(** [C3] as stated fails.  On the logger of the scenario, [info("x")] leaves
    on standard output the line followed by the line feed of [console.log]:
    two line feeds in all, so what was written is not one line ending with
    "[INFO] x" and a single line feed. *)
Lemma C3_counterexample :
  let st0 := r_state (constructor (Some console_at_info) (fresh empty_world)) in
  let r := info sample_source sample_call sample_clock [VStr "x"] st0 in
  stdout (world (r_state r)) =
    "2024-05-01T12:00:00.000Z [INFO] x" +:+ LF +:+ LF /\
  ends_with ("[INFO] x" +:+ LF) (stdout (world (r_state r))) = false /\
  ~ single_line_written (stdout (world st0)) (stdout (world (r_state r))).
Proof.
  cbv zeta. split; [vm_compute; reflexivity|]. split; [vm_compute; reflexivity|].
  intros [prefix [Hprefix Heq]].
  apply (f_equal count_LF) in Heq.
  rewrite !count_LF_append, Hprefix in Heq.
  vm_compute in Heq. discriminate Heq.
Qed.

(** [C4] as stated fails.  After [new Logger({ logToFile: true, level: 3 })]
    and [on("DEBUG", f)] with an [f] that throws, the file sink is enabled
    without a path and DEBUG is below the minimum, yet [debug("x")] raises
    what [f] threw. *)
Lemma C4_counterexample :
  let r := method sample_source sample_call sample_clock DEBUG [VStr "x"] st_thrower in
  logToFile (this st_thrower) = true /\
  path_set (logFilePath (this st_thrower)) = false /\
  LOG_LEVELS DEBUG < level (this st_thrower) /\
  r_value r = inr (Thrown (VStr "boom")) /\
  ~ config_error_law (this st_thrower) DEBUG r.
Proof.
  cbv zeta. repeat split; try (vm_compute; reflexivity).
  intros [_ Hbelow].
  assert (Hlt : LOG_LEVELS DEBUG < level (this st_thrower)) by (simpl; lia).
  apply Hbelow in Hlt. vm_compute in Hlt. discriminate Hlt.
Qed.

Lemma C4_missing_path_amended_witness :
  let r0 := run_cb sample_call (LOG_TYPES ERROR) [VStr "x"] st_no_path in
  r_value r0 = inl tt /\
  logToFile (this (r_state r0)) = true /\
  path_set (logFilePath (this (r_state r0))) = false /\
  r_value (method sample_source sample_call sample_clock ERROR [VStr "x"]
             st_no_path) = inr no_path_error.
Proof.
  cbv zeta.
  assert (Hnormal :
    r_value (run_cb sample_call (LOG_TYPES ERROR) [VStr "x"] st_no_path) = inl tt)
    by (vm_compute; reflexivity).
  assert (Hfile :
    logToFile (this (r_state (run_cb sample_call (LOG_TYPES ERROR) [VStr "x"]
                                st_no_path))) = true)
    by (vm_compute; reflexivity).
  assert (Hpath :
    path_set (logFilePath (this (r_state (run_cb sample_call (LOG_TYPES ERROR)
                                            [VStr "x"] st_no_path)))) = false)
    by (vm_compute; reflexivity).
  repeat (split; [assumption|]).
  destruct (C4_missing_path_amended sample_source sample_call sample_clock
              st_no_path ERROR [VStr "x"] Hnormal Hfile Hpath)
    as [[Herror _] _].
  apply Herror. vm_compute. discriminate.
Defined.

Lemma C2_constructor_file_handling_witness :
  opt_logToFile opts_clear = Some true /\
  opt_logFilePath opts_clear = Some "t.log" /\
  "t.log" <> EmptyString /\
  files world_with_log !! "t.log" = Some "old line" /\
  files (world (r_state (constructor (Some opts_clear) (fresh world_with_log))))
    !! "t.log" = Some EmptyString.
Proof.
  assert (Hne : "t.log" <> EmptyString) by discriminate.
  repeat (split; [first [reflexivity | exact Hne | vm_compute; reflexivity]|]).
  destruct (C2_constructor_file_handling (fresh world_with_log) opts_clear
              "t.log" eq_refl eq_refl Hne) as (_ & Hclear & _).
  apply Hclear. reflexivity.
Defined.

Lemma C5_callback_fires_regardless_of_level_witness :
  cb (this st_readme_callback) !! LOG_TYPES DEBUG = Some (VFun 2) /\
  LOG_LEVELS DEBUG < level (this st_readme_callback) /\
  callback_events
    (r_trace (method sample_source sample_call sample_clock DEBUG [VStr "x"]
                st_readme_callback)) = [EvCallback (VFun 2) [VStr "x"]].
Proof.
  assert (Hreg : cb (this st_readme_callback) !! LOG_TYPES DEBUG = Some (VFun 2))
    by (vm_compute; reflexivity).
  split; [exact Hreg|]. split; [simpl; lia|].
  destruct (C5_callback_fires_regardless_of_level sample_source sample_call
              sample_clock st_readme_callback DEBUG [VStr "x"] 2%nat Hreg)
    as (_ & Honce & _).
  exact Honce.
Defined.

Lemma C6_callback_exception_aborts_witness :
  cb (this st_thrower) !! LOG_TYPES DEBUG = Some (VFun 1) /\
  snd (sample_call 1 [VStr "x"] st_thrower) = Some (Thrown (VStr "boom")) /\
  r_value (method sample_source sample_call sample_clock DEBUG [VStr "x"]
             st_thrower) = inr (Thrown (VStr "boom")) /\
  r_state (method sample_source sample_call sample_clock DEBUG [VStr "x"]
             st_thrower) = st_thrower.
Proof.
  assert (Hreg : cb (this st_thrower) !! LOG_TYPES DEBUG = Some (VFun 1))
    by (vm_compute; reflexivity).
  assert (Hthrow :
    snd (sample_call 1 [VStr "x"] st_thrower) = Some (Thrown (VStr "boom")))
    by reflexivity.
  split; [exact Hreg|]. split; [exact Hthrow|].
  destruct (C6_callback_exception_aborts sample_source sample_call sample_clock
              st_thrower DEBUG [VStr "x"] 1%nat _ Hreg Hthrow)
    as (Hval & Hstate & _).
  split; [exact Hval | exact Hstate].
Defined.

Lemma C8_on_ignores_invalid_arguments_witness :
  (forall s, VStr "TRACE" <> VStr (LOG_TYPES s)) /\
  (forall f, VStr "not a function" <> VFun f) /\
  on sample_source (VStr "TRACE") (VFun 0) st_thrower =
    mkResult st_thrower [] (inl tt) /\
  on sample_source (VStr "WARN") (VStr "not a function") st_thrower =
    mkResult st_thrower [] (inl tt).
Proof.
  assert (Hname : forall s, VStr "TRACE" <> VStr (LOG_TYPES s))
    by (intros s; destruct s; discriminate).
  assert (Hcall : forall f, VStr "not a function" <> VFun f)
    by (intros f; discriminate).
  split; [exact Hname|]. split; [exact Hcall|]. split.
  - apply (C8_on_ignores_invalid_arguments sample_source st_thrower
             (VStr "TRACE") (VFun 0)). left. exact Hname.
  - apply (C8_on_ignores_invalid_arguments sample_source st_thrower
             (VStr "WARN") (VStr "not a function")). right. exact Hcall.
Defined.

Lemma C9_reregistration_replaces_witness :
  0%nat <> 2%nat /\
  let st2 :=
    r_state (on sample_source (VStr (LOG_TYPES WARN)) (VFun 2)
               (r_state (on sample_source (VStr (LOG_TYPES WARN)) (VFun 0)
                           st_both))) in
  cb (this st2) !! LOG_TYPES WARN = Some (VFun 2) /\
  forall args,
    ~ In (EvCallback (VFun 0) args)
        (r_trace (method sample_source sample_call sample_clock WARN
                    [VStr "x"] st2)).
Proof.
  assert (Hne : 0%nat <> 2%nat) by discriminate.
  split; [exact Hne|]. cbv zeta.
  destruct (C9_reregistration_replaces sample_source sample_call sample_clock
              st_both WARN 0%nat 2%nat [VStr "x"])
    as (_ & _ & _ & Hreg & _ & Hnever).
  split; [exact Hreg | exact (Hnever Hne)].
Defined.

Lemma C10_agrees_with_previous_revision_witness :
  corresponds st_both legacy_st_both /\
  no_callbacks (this st_both) /\
  snd (run_calls sample_source sample_call sample_clock sample_calls st_both) =
  snd (Legacy.run_calls sample_source sample_clock sample_calls legacy_st_both).
Proof.
  assert (Hcorr : corresponds st_both legacy_st_both)
    by (repeat split; reflexivity).
  assert (Hnone : no_callbacks (this st_both))
    by (intros s; destruct s; vm_compute; reflexivity).
  split; [exact Hcorr|]. split; [exact Hnone|].
  destruct (C10_agrees_with_previous_revision sample_source sample_call
              sample_clock sample_calls st_both legacy_st_both Hcorr Hnone)
    as [[Hsame _] _].
  exact Hsame.
Defined.

(** ** Concrete instances of the further properties *)

Lemma X1_methods_keep_logger_object_witness :
  cb (this st_both) !! LOG_TYPES WARN = None /\
  this (r_state (method sample_source sample_call sample_clock WARN
                   [VStr "x"] st_both)) = this st_both.
Proof.
  assert (Hnone : cb (this st_both) !! LOG_TYPES WARN = None)
    by (vm_compute; reflexivity).
  split; [exact Hnone|].
  exact (proj2 (X1_methods_keep_logger_object sample_source sample_call
                  sample_clock st_both WARN [VStr "x"]) Hnone).
Defined.

Lemma X2_level_above_error_is_silent_witness :
  LOG_LEVELS ERROR < level (this st_silent) /\
  cb (this st_silent) !! LOG_TYPES ERROR = None /\
  method sample_source sample_call sample_clock ERROR [VStr "x"] st_silent =
    mkResult st_silent [] (inl tt).
Proof.
  assert (Hlevel : LOG_LEVELS ERROR < level (this st_silent)) by (simpl; lia).
  assert (Hnone : cb (this st_silent) !! LOG_TYPES ERROR = None)
    by (vm_compute; reflexivity).
  split; [exact Hlevel|]. split; [exact Hnone|].
  exact (X2_level_above_error_is_silent sample_source sample_call sample_clock
           st_silent ERROR [VStr "x"] Hlevel Hnone).
Defined.

Lemma X3_level_debug_passes_everything_witness :
  level (this st_verbose) <= LOG_LEVELS DEBUG /\
  cb (this st_verbose) !! LOG_TYPES DEBUG = None /\
  file_sink_ready (this st_verbose) /\
  r_trace (method sample_source sample_call sample_clock DEBUG [VStr "x"]
             st_verbose) =
    [EvConsoleLog ("2024-05-01T12:00:00.000Z [DEBUG] x" +:+ LF)].
Proof.
  assert (Hlevel : level (this st_verbose) <= LOG_LEVELS DEBUG) by (simpl; lia).
  assert (Hnone : cb (this st_verbose) !! LOG_TYPES DEBUG = None)
    by (vm_compute; reflexivity).
  assert (Hready : file_sink_ready (this st_verbose))
    by (intros H; discriminate H).
  split; [exact Hlevel|]. split; [exact Hnone|]. split; [exact Hready|].
  rewrite (X3_level_debug_passes_everything sample_source sample_call
             sample_clock st_verbose DEBUG [VStr "x"] Hlevel Hnone Hready).
  vm_compute. reflexivity.
Defined.

Lemma X4_both_sinks_same_line_file_first_witness :
  cb (this st_both_old) !! LOG_TYPES ERROR = None /\
  level (this st_both_old) <= LOG_LEVELS ERROR /\
  files (world (r_state (method sample_source sample_call sample_clock ERROR
                           [VStr "boom"] st_both_old))) !! "t.log" =
    Some ("old line" +:+ "2024-05-01T12:00:00.000Z [ERROR] boom" +:+ LF).
Proof.
  assert (Hnone : cb (this st_both_old) !! LOG_TYPES ERROR = None)
    by (vm_compute; reflexivity).
  assert (Hlevel : level (this st_both_old) <= LOG_LEVELS ERROR)
    by (simpl; lia).
  assert (Hne : "t.log" <> EmptyString) by discriminate.
  split; [exact Hnone|]. split; [exact Hlevel|].
  destruct (X4_both_sinks_same_line_file_first sample_source sample_call
              sample_clock st_both_old ERROR [VStr "boom"] "t.log"
              Hnone eq_refl eq_refl eq_refl Hne Hlevel)
    as (_ & _ & Hfile & _).
  rewrite Hfile. vm_compute. reflexivity.
Defined.

Lemma X5_missing_path_writes_nothing_witness :
  let r0 := run_cb sample_call (LOG_TYPES ERROR) [VStr "x"] st_no_path in
  r_value r0 = inl tt /\
  logToFile (this (r_state r0)) = true /\
  path_set (logFilePath (this (r_state r0))) = false /\
  level (this (r_state r0)) <= LOG_LEVELS ERROR /\
  stdout (world (r_state (method sample_source sample_call sample_clock ERROR
                            [VStr "x"] st_no_path))) = EmptyString.
Proof.
  cbv zeta.
  assert (Hnormal :
    r_value (run_cb sample_call (LOG_TYPES ERROR) [VStr "x"] st_no_path) = inl tt)
    by (vm_compute; reflexivity).
  assert (Hfile :
    logToFile (this (r_state (run_cb sample_call (LOG_TYPES ERROR) [VStr "x"]
                                st_no_path))) = true)
    by (vm_compute; reflexivity).
  assert (Hpath :
    path_set (logFilePath (this (r_state (run_cb sample_call (LOG_TYPES ERROR)
                                            [VStr "x"] st_no_path)))) = false)
    by (vm_compute; reflexivity).
  assert (Hlevel :
    level (this (r_state (run_cb sample_call (LOG_TYPES ERROR) [VStr "x"]
                            st_no_path))) <= LOG_LEVELS ERROR)
    by (vm_compute; discriminate).
  repeat (split; [assumption|]).
  destruct (X5_missing_path_writes_nothing sample_source sample_call
              sample_clock st_no_path ERROR [VStr "x"] Hnormal Hfile Hpath
              Hlevel) as (_ & _ & Hout).
  rewrite Hout. vm_compute. reflexivity.
Defined.

Lemma X6_console_output_of_a_series_witness :
  no_callbacks (this st_verbose) /\
  file_sink_ready (this st_verbose) /\
  logToConsole (this st_verbose) = true /\
  stdout (world (fst (run_calls sample_source sample_call sample_clock
                        sample_calls st_verbose))) =
    "2024-05-01T12:00:00.000Z [DEBUG] d" +:+ LF +:+ LF +:+
    "2024-05-01T12:00:00.000Z [INFO] a 1 true" +:+ LF +:+ LF +:+
    "2024-05-01T12:00:00.000Z [ERROR] boom" +:+ LF +:+ LF.
Proof.
  assert (Hnone : no_callbacks (this st_verbose))
    by (intros s; destruct s; vm_compute; reflexivity).
  assert (Hready : file_sink_ready (this st_verbose))
    by (intros H; discriminate H).
  split; [exact Hnone|]. split; [exact Hready|]. split; [reflexivity|].
  destruct (X6_console_output_of_a_series sample_source sample_call
              sample_clock sample_calls st_verbose Hnone Hready eq_refl)
    as (_ & Hout & _).
  rewrite Hout. vm_compute. reflexivity.
Defined.

Lemma X7_log_file_of_a_series_witness :
  no_callbacks (this st_both_old) /\
  "t.log" <> EmptyString /\
  files (world (fst (run_calls sample_source sample_call sample_clock
                       sample_calls st_both_old))) !! "t.log" =
    Some ("old line" +:+
          "2024-05-01T12:00:00.000Z [INFO] a 1 true" +:+ LF +:+
          "2024-05-01T12:00:00.000Z [ERROR] boom" +:+ LF).
Proof.
  assert (Hnone : no_callbacks (this st_both_old))
    by (intros s; destruct s; vm_compute; reflexivity).
  assert (Hne : "t.log" <> EmptyString) by discriminate.
  split; [exact Hnone|]. split; [exact Hne|].
  destruct (X7_log_file_of_a_series sample_source sample_call sample_clock
              sample_calls st_both_old "t.log" Hnone eq_refl eq_refl Hne)
    as (_ & Hfile & _).
  rewrite Hfile by (vm_compute; discriminate). vm_compute. reflexivity.
Defined.

Lemma X8_constructor_without_file_sink_keeps_world_witness :
  default false (opt_logToFile (mkOptions None None (Some "t.log") None (Some true)))
    = false /\
  world (r_state (constructor
                    (Some (mkOptions None None (Some "t.log") None (Some true)))
                    (fresh world_with_log))) = world_with_log.
Proof.
  split; [reflexivity|].
  rewrite (X8_constructor_without_file_sink_keeps_world (fresh world_with_log)
             (mkOptions None None (Some "t.log") None (Some true))
             (or_introl eq_refl)).
  reflexivity.
Defined.

Lemma X9_first_write_after_construction_witness :
  "t.log" <> EmptyString /\
  level (configured opts_both) <= LOG_LEVELS ERROR /\
  files world_with_log !! "t.log" = Some "old line" /\
  files (world (r_state
                  (method sample_source sample_call sample_clock ERROR
                     [VStr "boom"]
                     (r_state (constructor (Some opts_both)
                                 (fresh world_with_log)))))) !! "t.log" =
    Some ("2024-05-01T12:00:00.000Z [ERROR] boom" +:+ LF).
Proof.
  assert (Hne : "t.log" <> EmptyString) by discriminate.
  assert (Hlevel : level (configured opts_both) <= LOG_LEVELS ERROR)
    by (simpl; lia).
  split; [exact Hne|]. split; [exact Hlevel|].
  split; [vm_compute; reflexivity|].
  destruct (X9_first_write_after_construction sample_source sample_call
              sample_clock (fresh world_with_log) opts_both "t.log" ERROR
              [VStr "boom"] eq_refl eq_refl Hne Hlevel) as [_ Hfile].
  rewrite Hfile. vm_compute. reflexivity.
Defined.

Lemma X10_previous_revision_appends_to_old_file_witness :
  "t.log" <> EmptyString /\
  files (Legacy.world
           (r_state
              (Legacy.method sample_source sample_clock ERROR [VStr "boom"]
                 (r_state (Legacy.constructor (Some opts_both)
                             (Legacy.mkState world_with_log
                                (Legacy.mkLogger false false None 0)))))))
    !! "t.log" =
    Some ("old line" +:+ "2024-05-01T12:00:00.000Z [ERROR] boom" +:+ LF).
Proof.
  assert (Hne : "t.log" <> EmptyString) by discriminate.
  assert (Hlevel :
    match opt_level opts_both with None => LOG_LEVELS INFO | Some l => l end
      <= LOG_LEVELS ERROR) by (simpl; lia).
  split; [exact Hne|].
  destruct (X10_previous_revision_appends_to_old_file sample_source
              sample_call sample_clock
              (Legacy.mkState world_with_log (Legacy.mkLogger false false None 0))
              opts_both "t.log" ERROR [VStr "boom"] eq_refl eq_refl Hne Hlevel)
    as (_ & _ & Hfile).
  rewrite Hfile. vm_compute. reflexivity.
Defined.

Lemma X11_on_concerns_one_severity_witness :
  ERROR <> WARN /\
  cb (this st_both) !! LOG_TYPES ERROR = None /\
  r_trace (method sample_source sample_call sample_clock ERROR [VStr "x"]
             (r_state (on sample_source (VStr (LOG_TYPES WARN)) (VFun 2)
                         st_both))) =
  r_trace (method sample_source sample_call sample_clock ERROR [VStr "x"]
             st_both).
Proof.
  assert (Hne : ERROR <> WARN) by discriminate.
  assert (Hnone : cb (this st_both) !! LOG_TYPES ERROR = None)
    by (vm_compute; reflexivity).
  split; [exact Hne|]. split; [exact Hnone|].
  destruct (X11_on_concerns_one_severity sample_source sample_call sample_clock
              st_both WARN ERROR 2%nat [VStr "x"] Hne Hnone)
    as (_ & _ & Htrace & _).
  exact Htrace.
Defined.

Lemma X12_registrations_commute_witness :
  DEBUG <> INFO /\
  r_state (on sample_source (VStr (LOG_TYPES INFO)) (VFun 2)
             (r_state (on sample_source (VStr (LOG_TYPES DEBUG)) (VFun 0)
                         st_both))) =
  r_state (on sample_source (VStr (LOG_TYPES DEBUG)) (VFun 0)
             (r_state (on sample_source (VStr (LOG_TYPES INFO)) (VFun 2)
                         st_both))).
Proof.
  assert (Hne : DEBUG <> INFO) by discriminate.
  split; [exact Hne|].
  exact (proj1 (X12_registrations_commute sample_source st_both DEBUG INFO
                  0%nat 2%nat) Hne).
Defined.

Lemma X15_only_own_callback_is_invoked_witness :
  In (EvCallback (VFun 2) [VStr "x"])
     (r_trace (method sample_source sample_call sample_clock DEBUG [VStr "x"]
                 st_readme_callback)) /\
  exists f,
    EvCallback (VFun 2) [VStr "x"] = EvCallback (VFun f) [VStr "x"] /\
    cb (this st_readme_callback) !! LOG_TYPES DEBUG = Some (VFun f).
Proof.
  assert (Hin :
    In (EvCallback (VFun 2) [VStr "x"])
       (r_trace (method sample_source sample_call sample_clock DEBUG
                   [VStr "x"] st_readme_callback)))
    by (vm_compute; left; reflexivity).
  split; [exact Hin|].
  exact (X15_only_own_callback_is_invoked sample_source sample_call
           sample_clock st_readme_callback DEBUG [VStr "x"]
           (EvCallback (VFun 2) [VStr "x"]) Hin eq_refl).
Defined.

Lemma X16_constructor_actions_witness :
  "t.log" <> EmptyString /\
  r_trace (constructor (Some opts_clear) (fresh world_with_log)) =
    [EvUnlink "t.log"; EvWriteFile "t.log" EmptyString].
Proof.
  assert (Hne : "t.log" <> EmptyString) by discriminate.
  split; [exact Hne|].
  rewrite (X16_constructor_actions (fresh world_with_log) opts_clear "t.log"
             eq_refl eq_refl Hne).
  vm_compute. reflexivity.
Defined.

(** Of the four sample registrations only the first is valid: the others
    (unknown name, callback that is not a function, name that is not a
    string) leave no entry. *)
Lemma sample_registrations_table :
  cb (this (register_all sample_source sample_registrations st_both)) =
    {[ "WARN" := VFun 2 ]}.
Proof. vm_compute. reflexivity. Qed.
